(** * Chat application: row-level policies and client handlers

    A shallow embedding of the schema and row-level security policies of the
    migration script, and of the client handlers that talk to the store
    (ChatWindow, NewChatModal, ContactsModal, ChatInterface).

    Conventions.
    - A [uuid] is an opaque identifier: the code only compares identifiers
      for equality, and the store draws a new one for every inserted row
      (DEFAULT gen_random_uuid()).  It is a natural number here and the
      store keeps the next unused one.
    - A [timestamp] is the instant a timestamptz value denotes.  The
      first part takes it at the resolution of [new Date(s).getTime()]
      and compares these integers; the second part keeps the stored
      microseconds and applies [Date_getTime] where the code builds a
      Date.
    - A [jsstring] is a JavaScript string: the list of its UTF-16 code
      units.
    - [auth.uid()] is the [uid] argument of every store operation.
    - The first part reads a policy as a predicate on the stored tables,
      as the header of the migration describes the policies.  The second
      part ("The store as PostgreSQL runs it") puts the subqueries of
      the policies under the policies of the relations they read, and
      refuses the statements whose policies lead back to themselves.
    - The client never rejects a promise: every call returns a response
      whose [error] field is set when the statement failed (the handlers
      that care read that field and throw it themselves).
    - A handler runs to completion against the store: interleavings with
      other sessions are outside the model. *)

From Stdlib Require Import String Ascii.
From Stdlib Require Import List Bool Arith ZArith NArith Lia.
From Stdlib Require Import Sorted Permutation.
Import ListNotations.

Set Implicit Arguments.

(** ** Basic data *)

Definition uuid := nat.
Definition timestamp := Z.
Definition jsstring := list N.

(** The code units of an ASCII literal, for readable examples. *)
Definition str (s : string) : jsstring :=
  map (fun a => N_of_ascii a) (list_ascii_of_string s).

(** [String.prototype.trim]: WhiteSpace and LineTerminator code points of
    ECMAScript, all of them single code units. *)
Definition is_white_space (c : N) : bool :=
  existsb (N.eqb c)
    [0x0009; 0x000A; 0x000B; 0x000C; 0x000D; 0x0020; 0x00A0; 0x1680;
     0x2000; 0x2001; 0x2002; 0x2003; 0x2004; 0x2005; 0x2006; 0x2007;
     0x2008; 0x2009; 0x200A; 0x2028; 0x2029; 0x202F; 0x205F; 0x3000;
     0xFEFF]%N.

Fixpoint trimStart (s : jsstring) : jsstring :=
  match s with
  | [] => []
  | c :: s' => if is_white_space c then trimStart s' else s
  end.

Definition trimEnd (s : jsstring) : jsstring := rev (trimStart (rev s)).

Definition trim (s : jsstring) : jsstring := trimEnd (trimStart s).

(** Truthiness of a string: only the empty string is falsy. *)
Definition truthy (s : jsstring) : bool :=
  match s with [] => false | _ :: _ => true end.

(** ** Rows (lib/supabase.ts and the CREATE TABLE statements) *)

Module Profile.
Record t := mk {
  id : uuid;
  email : jsstring;
  display_name : jsstring;
  avatar_url : option jsstring;
  status : jsstring;
  created_at : timestamp;
  updated_at : timestamp
}.
End Profile.

Module Contact.
Record t := mk {
  id : uuid;
  user_id : uuid;
  contact_id : uuid;
  created_at : timestamp
}.
End Contact.

Inductive conversation_type := private | group.

Definition conversation_type_eqb (a b : conversation_type) : bool :=
  match a, b with
  | private, private => true
  | group, group => true
  | _, _ => false
  end.

Module Conversation.
Record t := mk {
  id : uuid;
  type : conversation_type;
  name : option jsstring;
  created_by : uuid;
  created_at : timestamp;
  updated_at : timestamp
}.
End Conversation.

Module ConversationParticipant.
Record t := mk {
  id : uuid;
  conversation_id : uuid;
  user_id : uuid;
  joined_at : timestamp;
  last_read_at : option timestamp
}.
End ConversationParticipant.

Module Message.
Record t := mk {
  id : uuid;
  conversation_id : uuid;
  sender_id : uuid;
  content : jsstring;
  created_at : timestamp;
  updated_at : timestamp
}.
End Message.

(** ** The store *)

Record DB := mkDB {
  profiles : list Profile.t;
  contacts : list Contact.t;
  conversations : list Conversation.t;
  conversation_participants : list ConversationParticipant.t;
  messages : list Message.t;
  next_uuid : uuid
}.

Inductive pg_error :=
| rls_violation        (* new row violates row-level security policy *)
| check_violation      (* CHECK constraint *)
| unique_violation     (* UNIQUE constraint *)
| foreign_key_violation.

(** What a client call resolves to: [{ data, error }]. *)
Record Response (A : Type) := mkResponse {
  data : option A;
  error : option pg_error
}.

Definition ok {A} (a : A) : Response A := mkResponse (Some a) None.
Definition failed {A} (e : pg_error) : Response A := mkResponse None (Some e).

(** *** Row-level security policies *)

Section Policies.
Variable uid : uuid.   (* auth.uid() *)
Variable db : DB.

(** EXISTS (SELECT 1 FROM conversation_participants
            WHERE conversation_id = c AND user_id = auth.uid()) *)
Definition is_participant (c : uuid) : bool :=
  existsb (fun cp =>
             (ConversationParticipant.conversation_id cp =? c)
             && (ConversationParticipant.user_id cp =? uid))
          (conversation_participants db).

(* profiles *)
Definition profiles_select_policy (_ : Profile.t) : bool := true.
Definition profiles_insert_policy (r : Profile.t) : bool :=
  uid =? Profile.id r.
Definition profiles_update_policy (r : Profile.t) : bool :=
  uid =? Profile.id r.

(* contacts *)
Definition contacts_select_policy (r : Contact.t) : bool :=
  uid =? Contact.user_id r.
Definition contacts_insert_policy (r : Contact.t) : bool :=
  uid =? Contact.user_id r.
Definition contacts_delete_policy (r : Contact.t) : bool :=
  uid =? Contact.user_id r.

(* conversations *)
Definition conversations_select_policy (r : Conversation.t) : bool :=
  is_participant (Conversation.id r).
Definition conversations_insert_policy (r : Conversation.t) : bool :=
  uid =? Conversation.created_by r.
Definition conversations_update_policy (r : Conversation.t) : bool :=
  uid =? Conversation.created_by r.

(* conversation_participants *)
Definition conversation_participants_select_policy
    (r : ConversationParticipant.t) : bool :=
  is_participant (ConversationParticipant.conversation_id r).
Definition conversation_participants_insert_policy
    (r : ConversationParticipant.t) : bool :=
  existsb (fun c =>
             (Conversation.id c =? ConversationParticipant.conversation_id r)
             && (Conversation.created_by c =? uid))
          (conversations db).
Definition conversation_participants_delete_policy
    (r : ConversationParticipant.t) : bool :=
  uid =? ConversationParticipant.user_id r.

(* messages *)
Definition messages_select_policy (r : Message.t) : bool :=
  is_participant (Message.conversation_id r).
Definition messages_insert_policy (r : Message.t) : bool :=
  (uid =? Message.sender_id r)
  && is_participant (Message.conversation_id r).
Definition messages_update_policy (r : Message.t) : bool :=
  uid =? Message.sender_id r.
Definition messages_delete_policy (r : Message.t) : bool :=
  uid =? Message.sender_id r.

(** *** SELECT: the rows the USING expression lets through *)

Definition select_profiles : list Profile.t :=
  filter profiles_select_policy (profiles db).
Definition select_contacts : list Contact.t :=
  filter contacts_select_policy (contacts db).
Definition select_conversations : list Conversation.t :=
  filter conversations_select_policy (conversations db).
Definition select_conversation_participants
    : list ConversationParticipant.t :=
  filter conversation_participants_select_policy
         (conversation_participants db).
Definition select_messages : list Message.t :=
  filter messages_select_policy (messages db).

(** *** Constraints of the tables *)

Definition profile_exists (u : uuid) : bool :=
  existsb (fun p => Profile.id p =? u) (profiles db).
Definition conversation_exists (c : uuid) : bool :=
  existsb (fun r => Conversation.id r =? c) (conversations db).
End Policies.

(** *** INSERT: WITH CHECK expression, then the table's constraints

    Every insert fills the defaulted columns ([id], the timestamps) and
    leaves the store untouched when it fails.  [now] is the value of now()
    for the statement.  The response carries the inserted row; a caller
    that does not chain [.select()] has no use for it. *)

Definition set_contacts (db : DB) (l : list Contact.t) (n : uuid) : DB :=
  mkDB (profiles db) l (conversations db) (conversation_participants db)
       (messages db) n.
Definition set_conversations (db : DB) (l : list Conversation.t) (n : uuid)
    : DB :=
  mkDB (profiles db) (contacts db) l (conversation_participants db)
       (messages db) n.
Definition set_conversation_participants (db : DB)
    (l : list ConversationParticipant.t) (n : uuid) : DB :=
  mkDB (profiles db) (contacts db) (conversations db) l (messages db) n.
Definition set_messages (db : DB) (l : list Message.t) (n : uuid) : DB :=
  mkDB (profiles db) (contacts db) (conversations db)
       (conversation_participants db) l n.

(** contacts: [{ user_id, contact_id }] *)
Definition new_contact (db : DB) (user contact : uuid) (now : timestamp)
    : Contact.t :=
  Contact.mk (next_uuid db) user contact now.

Definition contact_pair_exists (db : DB) (user contact : uuid) : bool :=
  existsb (fun r => (Contact.user_id r =? user)
                    && (Contact.contact_id r =? contact))
          (contacts db).

Definition insert_contacts (uid : uuid) (db : DB) (user contact : uuid)
    (now : timestamp) : DB * Response Contact.t :=
  let r := new_contact db user contact now in
  if negb (contacts_insert_policy uid r) then (db, failed rls_violation)
  else if user =? contact then (db, failed check_violation)
  else if contact_pair_exists db user contact
       then (db, failed unique_violation)
  else if negb (profile_exists db user && profile_exists db contact)
       then (db, failed foreign_key_violation)
  else (set_contacts db (contacts db ++ [r]) (S (next_uuid db)), ok r).

(** conversations: [{ type, name?, created_by }] *)
Definition new_conversation (db : DB) (ty : conversation_type)
    (nm : option jsstring) (creator : uuid) (now : timestamp)
    : Conversation.t :=
  Conversation.mk (next_uuid db) ty nm creator now now.

Definition insert_conversations (uid : uuid) (db : DB)
    (ty : conversation_type) (nm : option jsstring) (creator : uuid)
    (now : timestamp) : DB * Response Conversation.t :=
  let r := new_conversation db ty nm creator now in
  if negb (conversations_insert_policy uid r) then (db, failed rls_violation)
  else if negb (profile_exists db creator)
       then (db, failed foreign_key_violation)
  else (set_conversations db (conversations db ++ [r]) (S (next_uuid db)),
        ok r).

(** conversation_participants: an array of [{ conversation_id, user_id }],
    inserted by one statement: all of the rows or none. *)
Definition new_participant (db : DB) (conv user : uuid) (now : timestamp)
    : ConversationParticipant.t :=
  ConversationParticipant.mk (next_uuid db) conv user now None.

Definition participant_pair_exists (db : DB) (conv user : uuid) : bool :=
  existsb (fun r => (ConversationParticipant.conversation_id r =? conv)
                    && (ConversationParticipant.user_id r =? user))
          (conversation_participants db).

Definition insert_participant_row (uid : uuid) (db : DB)
    (row : uuid * uuid) (now : timestamp) : DB + pg_error :=
  let '(conv, user) := row in
  let r := new_participant db conv user now in
  if negb (conversation_participants_insert_policy uid db r)
  then inr rls_violation
  else if participant_pair_exists db conv user then inr unique_violation
  else if negb (conversation_exists db conv && profile_exists db user)
       then inr foreign_key_violation
  else inl (set_conversation_participants db
              (conversation_participants db ++ [r]) (S (next_uuid db))).

Fixpoint insert_participant_rows (uid : uuid) (db : DB)
    (rows : list (uuid * uuid)) (now : timestamp) : DB + pg_error :=
  match rows with
  | [] => inl db
  | row :: rows' =>
      match insert_participant_row uid db row now with
      | inl db' => insert_participant_rows uid db' rows' now
      | inr e => inr e
      end
  end.

Definition insert_conversation_participants (uid : uuid) (db : DB)
    (rows : list (uuid * uuid)) (now : timestamp) : DB * Response unit :=
  match insert_participant_rows uid db rows now with
  | inl db' => (db', ok tt)
  | inr e => (db, failed e)
  end.

(** messages: [{ conversation_id, sender_id, content }] *)
Definition new_message (db : DB) (conv sender : uuid) (content : jsstring)
    (now : timestamp) : Message.t :=
  Message.mk (next_uuid db) conv sender content now now.

Definition insert_messages (uid : uuid) (db : DB) (conv sender : uuid)
    (content : jsstring) (now : timestamp) : DB * Response Message.t :=
  let r := new_message db conv sender content now in
  if negb (messages_insert_policy uid db r) then (db, failed rls_violation)
  else if negb (conversation_exists db conv && profile_exists db sender)
       then (db, failed foreign_key_violation)
  else (set_messages db (messages db ++ [r]) (S (next_uuid db)), ok r).

(** *** Integrity of a stored state (what the constraints maintain) *)

(** conversation_participants: both foreign keys. *)
Definition participants_fk (db : DB) : bool :=
  forallb (fun cp =>
             conversation_exists db (ConversationParticipant.conversation_id cp)
             && profile_exists db (ConversationParticipant.user_id cp))
          (conversation_participants db).

(** conversation_participants: UNIQUE(conversation_id, user_id). *)
Definition same_pair (a b : uuid * uuid) : bool :=
  (fst a =? fst b) && (snd a =? snd b).

Fixpoint distinct_pairs (l : list (uuid * uuid)) : bool :=
  match l with
  | [] => true
  | k :: l' => negb (existsb (same_pair k) l') && distinct_pairs l'
  end.

Definition participant_key (cp : ConversationParticipant.t) : uuid * uuid :=
  (ConversationParticipant.conversation_id cp,
   ConversationParticipant.user_id cp).

Definition participants_unique (db : DB) : bool :=
  distinct_pairs (map participant_key (conversation_participants db)).

(** contacts: CHECK (user_id != contact_id) and both foreign keys. *)
Definition contacts_ok (db : DB) : bool :=
  forallb (fun ct =>
             negb (Contact.user_id ct =? Contact.contact_id ct)
             && profile_exists db (Contact.user_id ct)
             && profile_exists db (Contact.contact_id ct))
          (contacts db).

(** Identifiers of conversations are below the next one the store hands
    out. *)
Definition uuids_allocated (db : DB) : bool :=
  forallb (fun c => Conversation.id c <? next_uuid db) (conversations db).


(** conversations: PRIMARY KEY (id). *)
Fixpoint distinct_ids (l : list uuid) : bool :=
  match l with
  | [] => true
  | x :: l' => negb (existsb (Nat.eqb x) l') && distinct_ids l'
  end.

Definition conversations_pk (db : DB) : bool :=
  distinct_ids (map Conversation.id (conversations db)).

(** The participant rows a successful insert of [rows] appends, the first
    of them with identifier [n]. *)
Fixpoint number_rows (n : uuid) (rows : list (uuid * uuid)) (now : timestamp)
    : list ConversationParticipant.t :=
  match rows with
  | [] => []
  | (conv, user) :: rows' =>
      ConversationParticipant.mk n conv user now None
      :: number_rows (S n) rows' now
  end.

(** All of the above. *)
Definition integrity (db : DB) : bool :=
  conversations_pk db && contacts_ok db && participants_fk db
  && participants_unique db && uuids_allocated db.

(** ** Client: shared pieces *)

(** [Array.prototype.includes] on identifiers. *)
Definition includes (l : list uuid) (x : uuid) : bool := existsb (Nat.eqb x) l.

(** [Array.prototype.sort] with a comparison function: [a] is placed before
    [b] when [cmp a b < 0], and elements that compare equal keep their
    order.  The rows of an ORDER BY are obtained the same way. *)
Section Sort.
Variable A : Type.
Variable cmp : A -> A -> Z.

Fixpoint sort_insert (x : A) (l : list A) : list A :=
  match l with
  | [] => [x]
  | y :: l' => if (cmp x y <=? 0)%Z then x :: l else y :: sort_insert x l'
  end.

Definition sort (l : list A) : list A := fold_right sort_insert [] l.
End Sort.

(** The order of a list sorted by descending [key]. *)
Definition descending {A} (key : A -> Z) (a b : A) : Prop :=
  (key b <= key a)%Z.

(** The caller of every request is the signed-in user, whose profile row
    carries the identity of the session. *)
Definition session (currentUser : Profile.t) : uuid := Profile.id currentUser.

(** ** ChatInterface.tsx *)

Module ConversationWithDetails.
Record t := mk {
  conversation : Conversation.t;   (* ...conv *)
  participants : list (ConversationParticipant.t * option Profile.t);
  last_message : option Message.t;
  unread_count : nat
}.
Definition id (c : t) : uuid := Conversation.id (conversation c).
Definition created_at (c : t) : timestamp :=
  Conversation.created_at (conversation c).
End ConversationWithDetails.

(** A row of the first query: the caller's participant row with the
    conversation embedded in it (null when there is none to embed). *)
Record ParticipantData := mkParticipantData {
  pd_conversation_id : uuid;
  pd_last_read_at : option timestamp;
  pd_conversations : option Conversation.t
}.

Definition find_conversation (l : list Conversation.t) (c : uuid)
    : option Conversation.t :=
  find (fun r => Conversation.id r =? c) l.

Definition find_profile (l : list Profile.t) (u : uuid) : option Profile.t :=
  find (fun r => Profile.id r =? u) l.

Definition query_participantData (uid : uuid) (db : DB) (user : uuid)
    : list ParticipantData :=
  map (fun cp =>
         mkParticipantData
           (ConversationParticipant.conversation_id cp)
           (ConversationParticipant.last_read_at cp)
           (find_conversation (select_conversations uid db)
              (ConversationParticipant.conversation_id cp)))
      (filter (fun cp => ConversationParticipant.user_id cp =? user)
              (select_conversation_participants uid db)).

Definition query_allParticipants (uid : uuid) (db : DB)
    (conversationIds : list uuid)
    : list (ConversationParticipant.t * option Profile.t) :=
  map (fun cp =>
         (cp, find_profile (select_profiles db)
                (ConversationParticipant.user_id cp)))
      (filter (fun cp =>
                 includes conversationIds
                   (ConversationParticipant.conversation_id cp))
              (select_conversation_participants uid db)).

(** .order('created_at', { ascending: false }) *)
Definition created_at_desc (a b : Message.t) : Z :=
  (Message.created_at b - Message.created_at a)%Z.

Definition query_lastMessages (uid : uuid) (db : DB)
    (conversationIds : list uuid) : list Message.t :=
  sort created_at_desc
       (filter (fun m => includes conversationIds (Message.conversation_id m))
               (select_messages uid db)).

(** The predicate of [unreadMessages]. *)
Definition is_unread (conv : uuid) (last_read_at : option timestamp)
    (m : Message.t) : bool :=
  (Message.conversation_id m =? conv)
  && match last_read_at with
     | None => true                                   (* !p.last_read_at *)
     | Some t => (t <? Message.created_at m)%Z
     end.

(** The body of [participantData.map]: reading [conv.id] of a null
    conversation throws, which is [None] here. *)
Definition with_details
    (allParticipants : list (ConversationParticipant.t * option Profile.t))
    (lastMessages : list Message.t) (p : ParticipantData)
    : option ConversationWithDetails.t :=
  match pd_conversations p with
  | None => None
  | Some conv =>
      let participants :=
        filter (fun ap =>
                  ConversationParticipant.conversation_id (fst ap)
                  =? Conversation.id conv)
               allParticipants in
      let lastMessage :=
        find (fun m => Message.conversation_id m =? Conversation.id conv)
             lastMessages in
      let unreadMessages :=
        filter (is_unread (Conversation.id conv) (pd_last_read_at p))
               lastMessages in
      Some (ConversationWithDetails.mk conv participants lastMessage
              (length unreadMessages))
  end.

(** [Array.prototype.map] with a callback that may throw. *)
Fixpoint map_or_throw {A B} (f : A -> option B) (l : list A)
    : option (list B) :=
  match l with
  | [] => Some []
  | x :: l' =>
      match f x with
      | None => None
      | Some y =>
          match map_or_throw f l' with
          | None => None
          | Some ys => Some (y :: ys)
          end
      end
  end.

(** [a.last_message?.created_at || a.created_at] *)
Definition sort_time (a : ConversationWithDetails.t) : timestamp :=
  match ConversationWithDetails.last_message a with
  | Some m => Message.created_at m
  | None => ConversationWithDetails.created_at a
  end.

Definition by_recent_activity (a b : ConversationWithDetails.t) : Z :=
  (sort_time b - sort_time a)%Z.

(** [loadConversations]: the list handed to [setConversations], or [None]
    when the body throws and the state is left as it was. *)
Definition loadConversations (user : Profile.t) (db : DB)
    : option (list ConversationWithDetails.t) :=
  let uid := session user in
  let participantData := query_participantData uid db (Profile.id user) in
  let conversationIds := map pd_conversation_id participantData in
  let allParticipants := query_allParticipants uid db conversationIds in
  let lastMessages := query_lastMessages uid db conversationIds in
  match map_or_throw (with_details allParticipants lastMessages)
                     participantData with
  | None => None
  | Some conversationsWithDetails =>
      Some (sort by_recent_activity conversationsWithDetails)
  end.

(** ** ChatWindow.tsx *)

Record ChatWindowState := mkChatWindowState {
  newMessage : jsstring;
  sending : bool
}.

(** [handleSendMessage].  The awaited insert resolves to a response, which
    the handler drops; nothing in the [try] block throws, so the statement
    after the await always runs. *)
Definition handleSendMessage (conversation : ConversationWithDetails.t)
    (currentUser : Profile.t) (st : ChatWindowState) (db : DB)
    (now : timestamp) : ChatWindowState * DB :=
  if negb (truthy (trim (newMessage st))) || sending st then (st, db)
  else
    (* setSending(true) *)
    let st1 := mkChatWindowState (newMessage st) true in
    let '(db', _) :=
      insert_messages (session currentUser) db
        (ConversationWithDetails.id conversation)
        (Profile.id currentUser)
        (trim (newMessage st)) now in
    (* setNewMessage('') *)
    let st2 := mkChatWindowState [] (sending st1) in
    (* finally: setSending(false) *)
    (mkChatWindowState (newMessage st2) false, db').

(** ** ContactsModal.tsx *)

(** [handleAddContact]: two inserts, whose responses are dropped. *)
Definition handleAddContact (currentUser : Profile.t) (db : DB)
    (userId : uuid) (now : timestamp) : DB :=
  let uid := session currentUser in
  let '(db1, _) :=
    insert_contacts uid db (Profile.id currentUser) userId now in
  let '(db2, _) :=
    insert_contacts uid db1 userId (Profile.id currentUser) now in
  db2.

(** ** NewChatModal.tsx *)

(** What a [catch] block can receive: an error of the store that the
    handler threw itself, or the TypeError of reading a field of null. *)
Inductive thrown :=
| store_error (e : pg_error)
| TypeError.

(** What a run of a create handler leaves behind. *)
Record Created := mkCreated {
  store : DB;
  onConversationCreated : option uuid;   (* the id it was called with *)
  onClose : bool;                        (* whether it was called *)
  console_error : option thrown          (* what the catch block logged *)
}.

(** The rows of the first query of [handleCreatePrivateChat]:
    [conversation_id, conversations!inner(type)] of the caller's
    participant rows. *)
Definition query_existingConv (uid : uuid) (db : DB) (user : uuid)
    : list (uuid * conversation_type) :=
  flat_map (fun cp =>
              match find_conversation (select_conversations uid db)
                      (ConversationParticipant.conversation_id cp) with
              | Some c => [(ConversationParticipant.conversation_id cp,
                            Conversation.type c)]
              | None => []
              end)
           (filter (fun cp => ConversationParticipant.user_id cp =? user)
                   (select_conversation_participants uid db)).

(** [select('user_id').eq('conversation_id', c)] *)
Definition query_participants_of (uid : uuid) (db : DB) (c : uuid)
    : list uuid :=
  map ConversationParticipant.user_id
      (filter (fun cp => ConversationParticipant.conversation_id cp =? c)
              (select_conversation_participants uid db)).

(** The test of the loop body. *)
Definition is_private_chat_with (uid : uuid) (db : DB) (contactId : uuid)
    (conv : uuid * conversation_type) : bool :=
  conversation_type_eqb (snd conv) private
  && (let participants := query_participants_of uid db (fst conv) in
      (length participants =? 2)
      && existsb (fun p => p =? contactId) participants).

Definition handleCreatePrivateChat (currentUser : Profile.t) (db : DB)
    (contactId : uuid) (now : timestamp) : Created :=
  let uid := session currentUser in
  let existingConv := query_existingConv uid db (Profile.id currentUser) in
  match find (is_private_chat_with uid db contactId) existingConv with
  | Some conv => mkCreated db (Some (fst conv)) true None
  | None =>
      let '(db1, r) :=
        insert_conversations uid db private None (Profile.id currentUser)
                             now in
      match error r, data r with
      | Some convError, _ =>
          mkCreated db1 None false (Some (store_error convError))
      | None, Some newConv =>
          let '(db2, _) :=
            insert_conversation_participants uid db1
              [(Conversation.id newConv, Profile.id currentUser);
               (Conversation.id newConv, contactId)] now in
          mkCreated db2 (Some (Conversation.id newConv)) true None
      | None, None => mkCreated db1 None false (Some TypeError)
      end
  end.

(** [handleCreateGroupChat]; [None] is the early return of the guard. *)
Definition handleCreateGroupChat (currentUser : Profile.t) (db : DB)
    (selectedContacts : list uuid) (groupName : jsstring) (now : timestamp)
    : option Created :=
  if (length selectedContacts =? 0) || negb (truthy (trim groupName))
  then None
  else
    let uid := session currentUser in
    let '(db1, r) :=
      insert_conversations uid db group (Some (trim groupName))
                           (Profile.id currentUser) now in
    Some
      match error r, data r with
      | Some convError, _ =>
          mkCreated db1 None false (Some (store_error convError))
      | None, Some newConv =>
          let participants :=
            (Conversation.id newConv, Profile.id currentUser)
            :: map (fun contactId => (Conversation.id newConv, contactId))
                   selectedContacts in
          let '(db2, _) :=
            insert_conversation_participants uid db1 participants now in
          mkCreated db2 (Some (Conversation.id newConv)) true None
      | None, None => mkCreated db1 None false (Some TypeError)
      end.

Definition toggleContactSelection (prev : list uuid) (contactId : uuid)
    : list uuid :=
  if includes prev contactId
  then filter (fun id => negb (id =? contactId)) prev
  else prev ++ [contactId].

(** The contacts the composer offers: the caller's rows of [contacts]. *)
Definition loadContacts (currentUser : Profile.t) (db : DB) : list Contact.t :=
  filter (fun r => Contact.user_id r =? Profile.id currentUser)
         (select_contacts (session currentUser) db).

(** ** More of the store: UPDATE and DELETE

    An update or delete touches the rows that match its filter and that the
    USING expression of a policy for the command lets through; the other
    rows are skipped without an error. *)

Definition set_profiles (db : DB) (l : list Profile.t) : DB :=
  mkDB l (contacts db) (conversations db) (conversation_participants db)
       (messages db) (next_uuid db).

Definition with_status (p : Profile.t) (s : jsstring) : Profile.t :=
  Profile.mk (Profile.id p) (Profile.email p) (Profile.display_name p)
             (Profile.avatar_url p) s (Profile.created_at p)
             (Profile.updated_at p).

(** profiles: [.update({ status }).eq('id', i)].  USING and WITH CHECK are
    the same expression; a new row that fails WITH CHECK fails the
    statement. *)
Definition update_profiles_status (uid : uuid) (db : DB) (i : uuid)
    (s : jsstring) : DB * Response unit :=
  let touched p := (Profile.id p =? i) && profiles_update_policy uid p in
  if forallb (fun p => profiles_update_policy uid (with_status p s))
             (filter touched (profiles db))
  then (set_profiles db
          (map (fun p => if touched p then with_status p s else p)
               (profiles db)),
        ok tt)
  else (db, failed rls_violation).

(** conversation_participants has policies FOR SELECT, INSERT and DELETE
    and none FOR UPDATE: with row level security enabled, no row passes. *)
Definition conversation_participants_update_policy (uid : uuid)
    (r : ConversationParticipant.t) : bool := false.

Definition with_last_read_at (r : ConversationParticipant.t) (t : timestamp)
    : ConversationParticipant.t :=
  ConversationParticipant.mk
    (ConversationParticipant.id r) (ConversationParticipant.conversation_id r)
    (ConversationParticipant.user_id r) (ConversationParticipant.joined_at r)
    (Some t).

(** [.update({ last_read_at }).eq('conversation_id', c).eq('user_id', u)] *)
Definition update_last_read_at (uid : uuid) (db : DB) (c u : uuid)
    (t : timestamp) : DB * Response unit :=
  (set_conversation_participants db
     (map (fun r =>
             if (ConversationParticipant.conversation_id r =? c)
                && (ConversationParticipant.user_id r =? u)
                && conversation_participants_update_policy uid r
             then with_last_read_at r t else r)
          (conversation_participants db))
     (next_uuid db),
   ok tt).

(** contacts: [.delete().eq('user_id', u).eq('contact_id', c)] *)
Definition delete_contacts (uid : uuid) (db : DB) (u c : uuid)
    : DB * Response unit :=
  (set_contacts db
     (filter (fun r => negb ((Contact.user_id r =? u)
                             && (Contact.contact_id r =? c)
                             && contacts_delete_policy uid r))
             (contacts db))
     (next_uuid db),
   ok tt).

(** ** ChatWindow.tsx, continued *)

(** .order('created_at', { ascending: true }) *)
Definition created_at_asc (a b : Message.t) : Z :=
  (Message.created_at a - Message.created_at b)%Z.

(** [loadMessages]: the list handed to [setMessages], each message with
    the profile of its sender embedded. *)
Definition loadMessages (conversation : ConversationWithDetails.t)
    (currentUser : Profile.t) (db : DB)
    : list (Message.t * option Profile.t) :=
  map (fun m => (m, find_profile (select_profiles db) (Message.sender_id m)))
      (sort created_at_asc
         (filter (fun m => Message.conversation_id m
                           =? ConversationWithDetails.id conversation)
                 (select_messages (session currentUser) db))).

(** [markAsRead]: the store after the update ([now] is [new Date()]). *)
Definition markAsRead (conversation : ConversationWithDetails.t)
    (currentUser : Profile.t) (db : DB) (now : timestamp) : DB :=
  fst (update_last_read_at (session currentUser) db
         (ConversationWithDetails.id conversation) (Profile.id currentUser)
         now).

(** [a || b] on strings that may be null. *)
Definition or_else (a : option jsstring) (b : jsstring) : jsstring :=
  match a with
  | Some s => if truthy s then s else b
  | None => b
  end.

(** [getConversationTitle] (and [getConversationName] of the list, which
    has the same body).  Reading [display_name] of a null profile throws:
    [None]. *)
Definition getConversationName (currentUserId : uuid)
    (conversation : ConversationWithDetails.t) : option jsstring :=
  match Conversation.type (ConversationWithDetails.conversation conversation)
  with
  | group =>
      Some (or_else (Conversation.name
                       (ConversationWithDetails.conversation conversation))
                    (str "Group Chat"))
  | private =>
      match find (fun p => negb (ConversationParticipant.user_id (fst p)
                                 =? currentUserId))
                 (ConversationWithDetails.participants conversation) with
      | None => Some (str "Unknown User")
      | Some otherParticipant =>
          match snd otherParticipant with
          | None => None
          | Some profile =>
              Some (or_else (Some (Profile.display_name profile))
                            (str "Unknown User"))
          end
      end
  end.

Definition getConversationTitle (conversation : ConversationWithDetails.t)
    (currentUser : Profile.t) : option jsstring :=
  getConversationName (Profile.id currentUser) conversation.

(** ** ConversationList.tsx *)

(** What [formatTime] returns: one of four template strings, or the date in
    the locale's format. *)
Inductive time_label :=
| JustNow                       (* 'Just now' *)
| MinutesAgo (diffMins : Z)     (* `${diffMins}m ago` *)
| HoursAgo (diffHours : Z)      (* `${diffHours}h ago` *)
| DaysAgo (diffDays : Z)        (* `${diffDays}d ago` *)
| LocaleDate (date : timestamp) (* date.toLocaleDateString() *).

(** [formatTime]; [now] is [new Date()], and [Math.floor] of a quotient of
    milliseconds is the floor division of integers. *)
Definition formatTime (now : timestamp) (timestamp : timestamp) : time_label :=
  let diffMs := (now - timestamp)%Z in
  let diffMins := (diffMs / 60000)%Z in
  let diffHours := (diffMs / 3600000)%Z in
  let diffDays := (diffMs / 86400000)%Z in
  if (diffMins <? 1)%Z then JustNow
  else if (diffMins <? 60)%Z then MinutesAgo diffMins
  else if (diffHours <? 24)%Z then HoursAgo diffHours
  else if (diffDays <? 7)%Z then DaysAgo diffDays
  else LocaleDate timestamp.

(** ** ChatInterface.tsx, continued *)

(** [handleConversationCreated]: the selection afterwards.  The reload it
    starts is not awaited, so [conversations] is the list of the current
    render. *)
Definition handleConversationCreated
    (conversations : list ConversationWithDetails.t)
    (selectedConversation : option ConversationWithDetails.t)
    (conversationId : uuid) : option ConversationWithDetails.t :=
  match find (fun c => ConversationWithDetails.id c =? conversationId)
             conversations with
  | Some newConv => Some newConv
  | None => selectedConversation
  end.

(** [handleSignOut]: the store after the update of the profile. *)
Definition handleSignOut (user : Profile.t) (db : DB) : DB :=
  fst (update_profiles_status (session user) db (Profile.id user)
         (str "offline")).

(** ** App.tsx *)

(** [maybeSingle]: the row when there is exactly one, null when there is
    none (and an error, with null data, when there are several). *)
Definition maybeSingle {A} (rows : list A) : option A :=
  match rows with
  | [r] => Some r
  | _ => None
  end.

(** [checkUser]: the [user] state afterwards, given the user of the
    session ([authUser], null when signed out). *)
Definition checkUser (authUser : option uuid) (db : DB)
    (user : option Profile.t) : option Profile.t :=
  match authUser with
  | Some a =>
      match maybeSingle (filter (fun p => Profile.id p =? a)
                                (select_profiles db)) with
      | Some profile => Some profile
      | None => user
      end
  | None => None
  end.

(** ** ContactsModal.tsx, continued *)

Definition loadAllUsers (currentUser : Profile.t) (db : DB) : list Profile.t :=
  filter (fun p => negb (Profile.id p =? Profile.id currentUser))
         (select_profiles db).

(** [handleRemoveContact]: two deletes. *)
Definition handleRemoveContact (currentUser : Profile.t) (db : DB)
    (contactId : uuid) : DB :=
  let uid := session currentUser in
  let '(db1, _) := delete_contacts uid db (Profile.id currentUser) contactId in
  let '(db2, _) := delete_contacts uid db1 contactId (Profile.id currentUser) in
  db2.

(** [String.prototype.includes]: [p] occurs in [s]. *)
Fixpoint starts_with (p s : jsstring) : bool :=
  match p, s with
  | [], _ => true
  | _ :: _, [] => false
  | a :: p', b :: s' => (a =? b)%N && starts_with p' s'
  end.

Fixpoint string_includes (s p : jsstring) : bool :=
  starts_with p s
  || match s with
     | [] => false
     | _ :: s' => string_includes s' p
     end.

(** [availableUsers], for any lower-casing of strings. *)
Section AvailableUsers.
Variable toLowerCase : jsstring -> jsstring.

Definition availableUsers (contacts : list Contact.t)
    (allUsers : list Profile.t) (searchQuery : jsstring) : list Profile.t :=
  let contactIds := map Contact.contact_id contacts in
  filter (fun user =>
            negb (includes contactIds (Profile.id user))
            && (string_includes (toLowerCase (Profile.display_name user))
                                (toLowerCase searchQuery)
                || string_includes (toLowerCase (Profile.email user))
                                   (toLowerCase searchQuery)))
         allUsers.
End AvailableUsers.

(** Lower-casing of the letters A to Z, which is what [toLowerCase] does
    on ASCII text. *)
Definition ascii_lower (s : jsstring) : jsstring :=
  map (fun c => if ((65 <=? c) && (c <=? 90))%N then (c + 32)%N else c) s.

(** ** Runs of the handlers that write to the store *)

(** One run of a handler, by any user with any arguments. *)
Inductive handler_step (db : DB) : DB -> Prop :=
| step_handleSendMessage conversation currentUser st now :
    handler_step db
      (snd (handleSendMessage conversation currentUser st db now))
| step_markAsRead conversation currentUser now :
    handler_step db (markAsRead conversation currentUser db now)
| step_handleAddContact currentUser userId now :
    handler_step db (handleAddContact currentUser db userId now)
| step_handleRemoveContact currentUser contactId :
    handler_step db (handleRemoveContact currentUser db contactId)
| step_handleCreatePrivateChat currentUser contactId now :
    handler_step db
      (store (handleCreatePrivateChat currentUser db contactId now))
| step_handleCreateGroupChat currentUser selectedContacts groupName now out :
    handleCreateGroupChat currentUser db selectedContacts groupName now
    = Some out ->
    handler_step db (store out)
| step_handleSignOut user :
    handler_step db (handleSignOut user db).

(** Any number of runs, one after the other. *)
Inductive handler_steps (db : DB) : DB -> Prop :=
| steps_none : handler_steps db db
| steps_more db1 db2 :
    handler_steps db db1 -> handler_step db1 db2 -> handler_steps db db2.

(** No participant row carries a read mark. *)
Definition never_read (db : DB) : bool :=
  forallb (fun cp => match ConversationParticipant.last_read_at cp with
                     | None => true
                     | Some _ => false
                     end)
          (conversation_participants db).

(** ** Reference notions for the conversation list *)

(** The messages stored for a conversation. *)
Definition messages_of (db : DB) (c : uuid) : list Message.t :=
  filter (fun m => Message.conversation_id m =? c) (messages db).

(** ** Reference notions for the new-chat composer *)

(** The caller has a participant row for the conversation. *)
Definition participates (db : DB) (uid c : uuid) : Prop :=
  exists cp, In cp (conversation_participants db)
             /\ ConversationParticipant.conversation_id cp = c
             /\ ConversationParticipant.user_id cp = uid.

(** The condition of the messages insert policy, in words: the row is sent
    in the caller's name and the caller is in the conversation. *)
Definition may_send (db : DB) (uid conv sender : uuid) : Prop :=
  sender = uid /\ participates db uid conv.

(** The participant rows stored for a conversation. *)
Definition participants_of (db : DB) (c : uuid)
    : list ConversationParticipant.t :=
  filter (fun cp => ConversationParticipant.conversation_id cp =? c)
         (conversation_participants db).

(** [c] is a stored private conversation in which [uid] participates and
    that has exactly two participant rows, one of them of [contactId]. *)
Definition private_chat_with (db : DB) (uid contactId : uuid)
    (c : Conversation.t) : Prop :=
  In c (conversations db)
  /\ Conversation.type c = private
  /\ participates db uid (Conversation.id c)
  /\ length (participants_of db (Conversation.id c)) = 2
  /\ participates db contactId (Conversation.id c).

(** ** A small store for the examples

    Profiles 1, 2, 3.  Conversation 10 is a private chat of 1 and 2 with
    three messages; conversation 11 is a group of 1, 2, 3 without messages;
    conversation 12 is a private chat of 2 and 3. *)

Definition profile_of (u : uuid) (nm : string) : Profile.t :=
  Profile.mk u (str nm) (str nm) None (str "offline") 0%Z 0%Z.

Definition alice := profile_of 1 "alice".
Definition bob := profile_of 2 "bob".
Definition carol := profile_of 3 "carol".

Definition sample_db : DB :=
  mkDB [alice; bob; carol]
       [Contact.mk 20 1 2 5%Z; Contact.mk 21 1 3 5%Z]
       [Conversation.mk 10 private None 1 100%Z 100%Z;
        Conversation.mk 11 group (Some (str "team")) 1 300%Z 300%Z;
        Conversation.mk 12 private None 2 50%Z 50%Z]
       [ConversationParticipant.mk 30 10 1 100%Z (Some 150%Z);
        ConversationParticipant.mk 31 10 2 100%Z None;
        ConversationParticipant.mk 32 11 1 300%Z None;
        ConversationParticipant.mk 33 11 2 300%Z None;
        ConversationParticipant.mk 34 11 3 300%Z None;
        ConversationParticipant.mk 35 12 2 50%Z None;
        ConversationParticipant.mk 36 12 3 50%Z None]
       [Message.mk 40 10 1 (str "hi") 120%Z 120%Z;
        Message.mk 41 10 2 (str "hello") 200%Z 200%Z;
        Message.mk 42 10 2 (str "there?") 250%Z 250%Z;
        Message.mk 43 12 3 (str "psst") 60%Z 60%Z]
       50.

Definition sample_chat (c : uuid) : ConversationWithDetails.t :=
  ConversationWithDetails.mk (Conversation.mk c private None 1 100%Z 100%Z)
                             [] None 0.

(** The list a user of the sample store gets, and its entry for a
    conversation. *)
Definition list_of (user : Profile.t) : list ConversationWithDetails.t :=
  match loadConversations user sample_db with
  | Some l => l
  | None => []
  end.

Definition entry_of (user : Profile.t) (c : uuid) : ConversationWithDetails.t :=
  match find (fun e => ConversationWithDetails.id e =? c) (list_of user) with
  | Some e => e
  | None => sample_chat c
  end.

Definition bob_in_10 : ConversationParticipant.t :=
  ConversationParticipant.mk 31 10 2 100%Z None.

(** The sample store after user 1 has left conversation 10 (the delete
    policy lets a user delete their own participant row). *)
Definition sample_db_left : DB :=
  set_conversation_participants sample_db
    (filter (fun cp => negb (ConversationParticipant.id cp =? 30))
            (conversation_participants sample_db))
    (next_uuid sample_db).

(** The sample store after user 1 has sent " yo" to conversation 10 at
    time 500. *)
Definition sample_db_sent : DB :=
  snd (handleSendMessage (entry_of alice 10) alice
         (mkChatWindowState (str " yo") false) sample_db 500%Z).

(** * The store as PostgreSQL runs it

    The operations above read every policy as a predicate on the stored
    tables, which is the reading of the migration's header ("Users can
    send messages only to conversations they're part of").  PostgreSQL
    does more to a statement before it runs it:
    - the policies of the statement's command are added to it for every
      relation it touches, and the SELECT policies of its target as well
      when it reads the rows it writes (INSERT ... RETURNING, which is what
      [.insert(...).select()] sends; UPDATE and DELETE with a filter);
    - a subquery inside a policy is a query of its own, to which the
      SELECT policies of the relation it reads are added in turn;
    - a statement whose policies, expanded this way, come back to a
      relation whose policies are being expanded is refused with error
      42P17, "infinite recursion detected in policy for relation",
      whatever the tables hold.

    This part reads the policies that way. *)

(** ** Expanding the policies of a statement *)

Inductive relation :=
| profiles_rel
| contacts_rel
| conversations_rel
| conversation_participants_rel
| messages_rel.

Definition relation_eqb (a b : relation) : bool :=
  match a, b with
  | profiles_rel, profiles_rel => true
  | contacts_rel, contacts_rel => true
  | conversations_rel, conversations_rel => true
  | conversation_participants_rel, conversation_participants_rel => true
  | messages_rel, messages_rel => true
  | _, _ => false
  end.

Inductive command := cmd_select | cmd_insert | cmd_update | cmd_delete.

(** The relations that the policies [ON r FOR c] of the migration read in
    an EXISTS subquery. *)
Definition policy_subqueries (r : relation) (c : command) : list relation :=
  match r, c with
  | conversations_rel, cmd_select =>
      [conversation_participants_rel]   (* "Users can view their conversations" *)
  | conversation_participants_rel, cmd_select =>
      [conversation_participants_rel]   (* "Users can view participants in their conversations" *)
  | conversation_participants_rel, cmd_insert =>
      [conversations_rel]               (* "Conversation creators can add participants" *)
  | messages_rel, cmd_select =>
      [conversation_participants_rel]   (* "Users can view messages in their conversations" *)
  | messages_rel, cmd_insert =>
      [conversation_participants_rel]   (* "Users can send messages to their conversations" *)
  | _, _ => []
  end.

(** A statement of the client, as far as its policies are concerned. *)
Record statement := mkStatement {
  target : relation;
  command_of : command;
  reads_target : bool;        (* a filter on the target's rows, or RETURNING *)
  embedded : list relation    (* relations joined in by the select list *)
}.

(** The commands whose policies are added for the target. *)
Definition applied_policies (s : statement) : list command :=
  match command_of s with
  | cmd_select => [cmd_select]
  | c => if reads_target s then [c; cmd_select] else [c]
  end.

Definition first_error (l : list (option relation)) : option relation :=
  fold_right (fun x rest => match x with Some r => Some r | None => rest end)
             None l.

(** Expanding the policies of [r] for the commands [cmds] while the
    policies of the relations in [active] are being expanded.  Policies
    without a subquery need no expansion.  Otherwise [r] must not be
    active; it becomes active, and every subquery is expanded as a SELECT
    on the relation it reads.  [Some r'] is the 42P17 error for [r'].
    There are five relations, so a chain of expansions that meets no
    active relation has at most five links and [fuel] never runs out. *)
Fixpoint expand_policies (fuel : nat) (active : list relation) (r : relation)
    (cmds : list command) : option relation :=
  match fuel with
  | 0 => Some r
  | S fuel' =>
      match flat_map (policy_subqueries r) cmds with
      | [] => None
      | subqueries =>
          if existsb (relation_eqb r) active then Some r
          else first_error
                 (map (fun q => expand_policies fuel' (r :: active) q
                                                [cmd_select])
                      subqueries)
      end
  end.

Definition statement_recursion_within (fuel : nat) (s : statement)
    : option relation :=
  first_error
    (map (fun r => expand_policies fuel [] r [cmd_select]) (embedded s)
     ++ [expand_policies fuel [] (target s) (applied_policies s)]).

Definition statement_recursion (s : statement) : option relation :=
  statement_recursion_within 6 s.

(** No policy added to the statement has a subquery. *)
Definition plain_policies (s : statement) : bool :=
  forallb (fun c => match policy_subqueries (target s) c with
                    | [] => true
                    | _ :: _ => false
                    end)
          (applied_policies s)
  && forallb (fun r => match policy_subqueries r cmd_select with
                       | [] => true
                       | _ :: _ => false
                       end)
             (embedded s).

(** ** Answers of the store *)

Inductive sql_error :=
| infinite_recursion (r : relation)   (* 42P17, for relation r *)
| violation (e : pg_error).

(** [{ data, error }] of a client call. *)
Record Answer (A : Type) := mkAnswer {
  answer_data : option A;
  answer_error : option sql_error
}.

Definition refused {A} (e : sql_error) : Answer A := mkAnswer None (Some e).

(** A statement that passes the expansion has policies without
    subqueries, and the predicates on the stored tables say what it
    returns or writes ([rows], [run]). *)
Definition pg_read {A} (s : statement) (rows : A) : Answer A :=
  match statement_recursion s with
  | Some r => refused (infinite_recursion r)
  | None => mkAnswer (Some rows) None
  end.

Definition pg_write {A} (s : statement) (db : DB) (run : DB * Response A)
    : DB * Answer A :=
  match statement_recursion s with
  | Some r => (db, refused (infinite_recursion r))
  | None => (fst run,
             mkAnswer (data (snd run))
                      (option_map violation (error (snd run))))
  end.

(** [from(r).select(...)] with the relations its select list embeds. *)
Definition select_from (r : relation) (embeds : list relation) : statement :=
  mkStatement r cmd_select true embeds.

(** [from(r).insert(...)], and [from(r).insert(...).select()]. *)
Definition insert_into (r : relation) : statement :=
  mkStatement r cmd_insert false [].
Definition insert_returning (r : relation) : statement :=
  mkStatement r cmd_insert true [].

Definition pg_insert_messages (uid : uuid) (db : DB) (conv sender : uuid)
    (content : jsstring) (now : timestamp) : DB * Answer Message.t :=
  pg_write (insert_into messages_rel) db
           (insert_messages uid db conv sender content now).

Definition pg_insert_conversations (uid : uuid) (db : DB)
    (ty : conversation_type) (nm : option jsstring) (created_by : uuid)
    (now : timestamp) : DB * Answer Conversation.t :=
  pg_write (insert_returning conversations_rel) db
           (insert_conversations uid db ty nm created_by now).

Definition pg_insert_conversation_participants (uid : uuid) (db : DB)
    (rows : list (uuid * uuid)) (now : timestamp)
    : DB * Answer unit :=
  pg_write (insert_into conversation_participants_rel) db
           (insert_conversation_participants uid db rows now).

(** ** Timestamps as the client reads them

    A timestamptz column keeps microseconds, and the text the client
    receives carries them; [new Date(text)] keeps milliseconds.  In this
    part a [timestamp] is the stored value, in microseconds since the
    epoch, and [Date_getTime] is [new Date(text).getTime()]. *)

Definition Date_getTime (t : timestamp) : Z := (t / 1000)%Z.

(** [new Date(a) > new Date(b)] *)
Definition later_by_Date (a b : timestamp) : bool :=
  (Date_getTime b <? Date_getTime a)%Z.

(** ** ChatInterface.tsx: loadConversations on the answers it receives *)

(** An element of [conversationsWithDetails]: the fields of the embedded
    conversation (none when it is null: spreading null adds nothing) and
    the three computed fields. *)
Record Entry := mkEntry {
  entry_conversation : option Conversation.t;
  entry_participants : list (ConversationParticipant.t * option Profile.t);
  entry_last_message : option Message.t;
  entry_unread_count : nat
}.

(** [x?.filter(...) || []]: the rows of an answer, none when it is null. *)
Definition rows_of {A} (answer : option (list A)) : list A :=
  match answer with
  | Some l => l
  | None => []
  end.

(** The predicate of [unreadMessages]. *)
Definition is_unread_by_Date (conv : uuid) (last_read_at : option timestamp)
    (m : Message.t) : bool :=
  (Message.conversation_id m =? conv)
  && match last_read_at with
     | None => true                                   (* !p.last_read_at *)
     | Some t => later_by_Date (Message.created_at m) t
     end.

(** The body of [participantData.map].  With a null conversation, the
    first call of a callback reads [conv.id] and throws ([None]); without
    rows to scan no callback is called. *)
Definition entry_of_row
    (allParticipants
       : option (list (ConversationParticipant.t * option Profile.t)))
    (lastMessages : option (list Message.t)) (p : ParticipantData)
    : option Entry :=
  match pd_conversations p with
  | Some conv =>
      let participants :=
        filter (fun ap =>
                  ConversationParticipant.conversation_id (fst ap)
                  =? Conversation.id conv)
               (rows_of allParticipants) in
      let lastMessage :=
        find (fun m => Message.conversation_id m =? Conversation.id conv)
             (rows_of lastMessages) in
      let unreadMessages :=
        filter (is_unread_by_Date (Conversation.id conv) (pd_last_read_at p))
               (rows_of lastMessages) in
      Some (mkEntry (Some conv) participants lastMessage
                    (length unreadMessages))
  | None =>
      match rows_of allParticipants, rows_of lastMessages with
      | [], [] => Some (mkEntry None [] None 0)
      | _, _ => None
      end
  end.

(** [a.last_message?.created_at || a.created_at], undefined ([None]) when
    the entry has neither. *)
Definition entry_time (a : Entry) : option timestamp :=
  match entry_last_message a with
  | Some m => Some (Message.created_at m)
  | None => option_map Conversation.created_at (entry_conversation a)
  end.

(** The comparison function of the sort.  [new Date(undefined).getTime()]
    is NaN, and [sort] takes a NaN result for 0. *)
Definition by_recent_activity_Date (a b : Entry) : Z :=
  match entry_time b, entry_time a with
  | Some bTime, Some aTime => (Date_getTime bTime - Date_getTime aTime)%Z
  | _, _ => 0%Z
  end.

(** What [loadConversations] hands to [setConversations], given the [data]
    of its three answers; [None] when it returns early or throws, and the
    state is left as it was. *)
Definition loadConversations_given
    (participantData : option (list ParticipantData))
    (allParticipants
       : option (list (ConversationParticipant.t * option Profile.t)))
    (lastMessages : option (list Message.t)) : option (list Entry) :=
  match participantData with
  | None => None                            (* if (!participantData) return *)
  | Some rows =>
      match map_or_throw (entry_of_row allParticipants lastMessages) rows with
      | None => None
      | Some conversationsWithDetails =>
          Some (sort by_recent_activity_Date conversationsWithDetails)
      end
  end.

(** [loadConversations] against the store. *)
Definition pg_loadConversations (user : Profile.t) (db : DB)
    : option (list Entry) :=
  let uid := session user in
  match answer_data
          (pg_read (select_from conversation_participants_rel
                                [conversations_rel])
                   (query_participantData uid db (Profile.id user))) with
  | None => None                            (* if (!participantData) return *)
  | Some participantData =>
      let conversationIds := map pd_conversation_id participantData in
      let allParticipants :=
        answer_data
          (pg_read (select_from conversation_participants_rel [profiles_rel])
                   (query_allParticipants uid db conversationIds)) in
      let lastMessages :=
        answer_data
          (pg_read (select_from messages_rel [])
                   (query_lastMessages uid db conversationIds)) in
      loadConversations_given (Some participantData) allParticipants
                              lastMessages
  end.

(** ** ChatWindow.tsx: loadMessages against the store *)

(** The [messages] state after [loadMessages], [shown] being the state
    before: [if (data) setMessages(...)]. *)
Definition pg_loadMessages (conversation : ConversationWithDetails.t)
    (currentUser : Profile.t) (db : DB)
    (shown : list (Message.t * option Profile.t))
    : list (Message.t * option Profile.t) :=
  match answer_data
          (pg_read (select_from messages_rel [profiles_rel])
                   (loadMessages conversation currentUser db)) with
  | Some data => data
  | None => shown
  end.

(** ** NewChatModal.tsx against the store *)

(** What a [catch] block receives. *)
Inductive caught :=
| caught_error (e : sql_error)   (* throw convError *)
| caught_TypeError.              (* a field of null was read *)

(** What a run of a create handler leaves behind. *)
Record Composed := mkComposed {
  composed_store : DB;
  reported : option uuid;       (* argument of onConversationCreated *)
  closed : bool;                (* whether onClose was called *)
  logged : option caught        (* what the catch block logged *)
}.

(** The test of the loop body: [participants && participants.length === 2
    && participants.some(...)] on the answer of the inner select. *)
Definition pg_is_private_chat_with (uid : uuid) (db : DB) (contactId : uuid)
    (conv : uuid * conversation_type) : bool :=
  conversation_type_eqb (snd conv) private
  && match answer_data
             (pg_read (select_from conversation_participants_rel [])
                      (query_participants_of uid db (fst conv))) with
     | Some participants =>
         (length participants =? 2)
         && existsb (fun p => p =? contactId) participants
     | None => false
     end.

Definition pg_handleCreatePrivateChat (currentUser : Profile.t) (db : DB)
    (contactId : uuid) (now : timestamp) : Composed :=
  let uid := session currentUser in
  let existingConv :=
    answer_data
      (pg_read (select_from conversation_participants_rel [conversations_rel])
               (query_existingConv uid db (Profile.id currentUser))) in
  match find (pg_is_private_chat_with uid db contactId)
             (rows_of existingConv) with      (* if (existingConv) for ... *)
  | Some conv => mkComposed db (Some (fst conv)) true None
  | None =>
      let '(db1, r) :=
        pg_insert_conversations uid db private None (Profile.id currentUser)
                                now in
      match answer_error r, answer_data r with
      | Some convError, _ =>
          mkComposed db1 None false (Some (caught_error convError))
      | None, Some newConv =>
          let '(db2, _) :=
            pg_insert_conversation_participants uid db1
              [(Conversation.id newConv, Profile.id currentUser);
               (Conversation.id newConv, contactId)] now in
          mkComposed db2 (Some (Conversation.id newConv)) true None
      | None, None => mkComposed db1 None false (Some caught_TypeError)
      end
  end.


(** ** Reference notions for the answers *)

(** The returned messages of a conversation, in the order of the answer. *)
Definition returned_for (lastMessages : option (list Message.t)) (c : uuid)
    : list Message.t :=
  filter (fun m => Message.conversation_id m =? c) (rows_of lastMessages).

(** The sort key of an entry at the resolution of [Date]. *)
Definition entry_key (a : Entry) : Z :=
  match entry_time a with
  | Some t => Date_getTime t
  | None => 0%Z
  end.

(** Every row of the first answer carries its conversation. *)
Definition conversations_embedded (rows : list ParticipantData) : bool :=
  forallb (fun p => match pd_conversations p with
                    | Some _ => true
                    | None => false
                    end)
          rows.

(** ** Answers for the examples (times in microseconds) *)

Definition row_of_conversation (c : uuid) (created : timestamp)
    (last_read_at : option timestamp) : ParticipantData :=
  mkParticipantData c last_read_at
    (Some (Conversation.mk c private None 1 created created)).

Definition message_at (i c : uuid) (created : timestamp) : Message.t :=
  Message.mk i c 2 (str "hi") created created.

(** ** Properties of the policies *)

Lemma is_participant_true (uid : uuid) (db : DB) (c : uuid) :
  is_participant uid db c = true <-> participates db uid c.
Proof.
  unfold is_participant, participates. rewrite existsb_exists.
  split; intros [cp [Hin H]]; exists cp; split; auto.
  - apply andb_true_iff in H. destruct H as [H1 H2].
    apply Nat.eqb_eq in H1, H2. auto.
  - destruct H as [H1 H2]. rewrite H1, H2, !Nat.eqb_refl. reflexivity.
Qed.

Lemma is_participant_false (uid : uuid) (db : DB) (c : uuid) :
  is_participant uid db c = false <-> ~ participates db uid c.
Proof.
  rewrite <- is_participant_true.
  destruct (is_participant uid db c); split; intro H; try reflexivity;
    try discriminate; try (intro; discriminate).
  exfalso; apply H; reflexivity.
Qed.

Lemma filter_none {A} (f : A -> bool) (l : list A) :
  (forall x, In x l -> f x = false) -> filter f l = [].
Proof.
  induction l as [| a l IH]; intros H; simpl; auto.
  rewrite (H a (or_introl eq_refl)). apply IH. intros x Hx. apply H. now right.
Qed.

Lemma filter_all {A} (f : A -> bool) (l : list A) :
  (forall x, In x l -> f x = true) -> filter f l = l.
Proof.
  induction l as [| a l IH]; intros H; simpl; auto.
  rewrite (H a (or_introl eq_refl)). f_equal. apply IH.
  intros x Hx. apply H. now right.
Qed.

Lemma filter_filter {A} (f g : A -> bool) (l : list A) :
  filter f (filter g l) = filter (fun x => g x && f x) l.
Proof.
  induction l as [| a l IH]; simpl; auto.
  destruct (g a); simpl; [destruct (f a) |]; rewrite IH; reflexivity.
Qed.




(** C2.  A caller without a participant row for conversation [c] selects
    none of: the conversations row [c], the participant rows of [c], the
    messages of [c]. *)
Theorem non_participant_selects_nothing :
  forall (db : DB) (uid c : uuid),
    ~ participates db uid c ->
    filter (fun r => Conversation.id r =? c) (select_conversations uid db)
    = []
    /\ filter (fun r => ConversationParticipant.conversation_id r =? c)
              (select_conversation_participants uid db) = []
    /\ filter (fun r => Message.conversation_id r =? c)
              (select_messages uid db) = [].
Proof.
  intros db uid c Hno. apply is_participant_false in Hno.
  unfold select_conversations, select_conversation_participants,
    select_messages.
  rewrite !filter_filter.
  repeat split; apply filter_none; intros x _;
    unfold conversations_select_policy,
      conversation_participants_select_policy, messages_select_policy;
    match goal with
    | |- _ && (?a =? c) = false =>
        destruct (Nat.eqb_spec a c) as [-> | _];
          [rewrite Hno; reflexivity | apply andb_false_r]
    end.
Qed.

Lemma non_participant_selects_nothing_witness :
  ~ participates sample_db 1 12
  /\ filter (fun r => Conversation.id r =? 12)
            (select_conversations 1 sample_db) = []
  /\ filter (fun r => ConversationParticipant.conversation_id r =? 12)
            (select_conversation_participants 1 sample_db) = []
  /\ filter (fun r => Message.conversation_id r =? 12)
            (select_messages 1 sample_db) = [].
Proof.
  assert (Hno : ~ participates sample_db 1 12)
    by (apply is_participant_false; reflexivity).
  split; [exact Hno |].
  apply (non_participant_selects_nothing Hno).
Defined.

(** ** Sorting *)

Section SortFacts.
Variable A : Type.
Variable cmp : A -> A -> Z.

Lemma sort_insert_perm (x : A) (l : list A) :
  Permutation (sort_insert cmp x l) (x :: l).
Proof.
  induction l as [| y l IH]; simpl; auto.
  destruct (cmp x y <=? 0)%Z; auto.
  rewrite IH. apply perm_swap.
Qed.

Lemma sort_perm (l : list A) : Permutation (sort cmp l) l.
Proof.
  induction l as [| x l IH]; simpl; auto.
  rewrite sort_insert_perm. auto.
Qed.

Lemma sort_In (l : list A) (x : A) : In x (sort cmp l) <-> In x l.
Proof.
  split; apply Permutation_in; [| symmetry]; apply sort_perm.
Qed.

(** A comparison function that is [key b - key a] on the elements of a
    list sorts the list by descending key. *)
Variable key : A -> Z.

Lemma sort_insert_descending_on (x : A) (l : list A) :
  (forall y, In y l -> cmp x y = (key y - key x)%Z) ->
  StronglySorted (descending key) l ->
  StronglySorted (descending key) (sort_insert cmp x l).
Proof.
  intros Hcmp Hs. induction Hs as [| y l Hl IH Hy]; simpl.
  - repeat constructor.
  - rewrite (Hcmp y (or_introl eq_refl)).
    destruct (Z.leb_spec (key y - key x) 0) as [Hle | Hgt].
    + constructor; [constructor; assumption |].
      constructor; [unfold descending; lia |].
      eapply Forall_impl; [| exact Hy].
      unfold descending; intros; lia.
    + constructor.
      * apply IH. intros z Hz. apply Hcmp. now right.
      * rewrite Forall_forall in *. intros z Hz.
        apply (Permutation_in _ (sort_insert_perm x l)) in Hz.
        destruct Hz as [<- | Hz]; [unfold descending; lia | auto].
Qed.

Lemma sort_descending_on (l : list A) :
  (forall a b, In a l -> In b l -> cmp a b = (key b - key a)%Z) ->
  StronglySorted (descending key) (sort cmp l).
Proof.
  induction l as [| x l IH]; intros Hcmp; simpl; [constructor |].
  apply sort_insert_descending_on.
  - intros y Hy. apply (proj1 (sort_In l y)) in Hy.
    apply Hcmp; simpl; auto.
  - apply IH. intros a b Ha Hb. apply Hcmp; simpl; auto.
Qed.
End SortFacts.

Lemma find_absent {A} (f : A -> bool) (l : list A) :
  (forall x, In x l -> f x = false) -> find f l = None.
Proof.
  induction l as [| a l IH]; intros H; simpl; auto.
  rewrite (H a (or_introl eq_refl)). apply IH. intros x Hx. apply H. now right.
Qed.

(** ** The conversation list *)

Lemma map_or_throw_In {A B} (f : A -> option B) (l : list A) (ys : list B) :
  map_or_throw f l = Some ys ->
  forall y, In y ys -> exists x, In x l /\ f x = Some y.
Proof.
  revert ys. induction l as [| a l IH]; simpl; intros ys H y Hy.
  - injection H as <-. destruct Hy.
  - destruct (f a) as [b |] eqn:Efa; [| discriminate].
    destruct (map_or_throw f l) as [ys' |]; [| discriminate].
    injection H as <-. destruct Hy as [<- | Hy].
    + exists a. auto.
    + destruct (IH ys' eq_refl y Hy) as [x [Hx Hfx]]. exists x. auto.
Qed.

Lemma includes_In (l : list uuid) (x : uuid) : includes l x = true <-> In x l.
Proof.
  unfold includes. rewrite existsb_exists. split.
  - intros [y [Hy E]]. apply Nat.eqb_eq in E. now subst.
  - intros H. exists x. split; auto. apply Nat.eqb_refl.
Qed.

Lemma find_conversation_id (l : list Conversation.t) (c : uuid)
    (conv : Conversation.t) :
  find_conversation l c = Some conv -> Conversation.id conv = c.
Proof.
  intros H. apply find_some in H. destruct H as [_ H].
  now apply Nat.eqb_eq in H.
Qed.

(** What [lastMessages] holds of a conversation that was asked for and in
    which the caller participates: all of its stored messages. *)
Section LastMessages.
Variables (uid : uuid) (db : DB) (conversationIds : list uuid) (c : uuid).
Hypothesis asked : In c conversationIds.
Hypothesis member : is_participant uid db c = true.

Lemma lastMessages_In (m : Message.t) :
  In m (query_lastMessages uid db conversationIds) -> In m (messages db).
Proof.
  unfold query_lastMessages. rewrite sort_In.
  intros H. apply filter_In in H. destruct H as [H _].
  apply filter_In in H. tauto.
Qed.

End LastMessages.

(** Where an entry of the list comes from: one of the caller's participant
    rows, the conversation embedded in it, and the two scans of
    [lastMessages]. *)
Lemma loadConversations_entry (user : Profile.t) (db : DB)
    (result : list ConversationWithDetails.t) (c : ConversationWithDetails.t) :
  loadConversations user db = Some result -> In c result ->
  exists cp conversationIds,
    In cp (conversation_participants db)
    /\ ConversationParticipant.user_id cp = Profile.id user
    /\ ConversationParticipant.conversation_id cp
       = ConversationWithDetails.id c
    /\ In (ConversationWithDetails.id c) conversationIds
    /\ ConversationWithDetails.last_message c
       = find (fun m => Message.conversation_id m
                        =? ConversationWithDetails.id c)
              (query_lastMessages (Profile.id user) db conversationIds)
    /\ ConversationWithDetails.unread_count c
       = length (filter (is_unread (ConversationWithDetails.id c)
                           (ConversationParticipant.last_read_at cp))
                   (query_lastMessages (Profile.id user) db conversationIds)).
Proof.
  unfold loadConversations, session. intros H Hc.
  destruct (map_or_throw _ _) as [l |] eqn:E; [| discriminate].
  injection H as <-. apply sort_In in Hc.
  destruct (map_or_throw_In _ _ E c Hc) as [pd [Hpd Hdet]].
  assert (Hids : In (pd_conversation_id pd)
                    (map pd_conversation_id
                       (query_participantData (Profile.id user) db
                          (Profile.id user))))
    by (now apply in_map).
  unfold query_participantData in Hpd at 1. apply in_map_iff in Hpd.
  destruct Hpd as [cp [<- Hcp]]. apply filter_In in Hcp.
  destruct Hcp as [Hcp Huser]. apply filter_In in Hcp.
  destruct Hcp as [Hcp _]. apply Nat.eqb_eq in Huser.
  unfold with_details in Hdet. simpl in Hdet, Hids.
  destruct (find_conversation _ _) as [conv |] eqn:Econv; [| discriminate].
  apply find_conversation_id in Econv. injection Hdet as <-.
  exists cp. eexists. unfold ConversationWithDetails.id. simpl.
  rewrite Econv. repeat split; eauto.
Qed.

(** C6.  The entry of a conversation that has no stored message carries no
    last_message and unread_count 0. *)
Theorem conversation_without_messages :
  forall (user : Profile.t) (db : DB)
         (result : list ConversationWithDetails.t)
         (c : ConversationWithDetails.t),
    loadConversations user db = Some result ->
    In c result ->
    messages_of db (ConversationWithDetails.id c) = [] ->
    ConversationWithDetails.last_message c = None
    /\ ConversationWithDetails.unread_count c = 0.
Proof.
  intros user db result c Hload Hc Hnone.
  destruct (@loadConversations_entry user db result c Hload Hc)
    as [cp [ids [Hcp [Huser [Hconv [Hids [Hlast Hcount]]]]]]].
  assert (Hno : forall m, In m (messages db) ->
                  (Message.conversation_id m =? ConversationWithDetails.id c)
                  = false).
  { intros m Hm. apply not_true_is_false. intros E.
    assert (In m (messages_of db (ConversationWithDetails.id c)))
      by (apply filter_In; auto).
    rewrite Hnone in H. destruct H. }
  split.
  - rewrite Hlast. apply find_absent. intros m Hm.
    apply Hno. eapply lastMessages_In; eauto.
  - rewrite Hcount. rewrite filter_none; [reflexivity |].
    intros m Hm. unfold is_unread. rewrite Hno; auto.
    eapply lastMessages_In; eauto.
Qed.

Lemma conversation_without_messages_witness :
  loadConversations alice sample_db = Some (list_of alice)
  /\ In (entry_of alice 11) (list_of alice)
  /\ messages_of sample_db (ConversationWithDetails.id (entry_of alice 11)) = []
  /\ ConversationWithDetails.last_message (entry_of alice 11) = None
  /\ ConversationWithDetails.unread_count (entry_of alice 11) = 0.
Proof.
  assert (H1 : loadConversations alice sample_db = Some (list_of alice))
    by reflexivity.
  assert (H2 : In (entry_of alice 11) (list_of alice))
    by (vm_compute; tauto).
  assert (H3 : messages_of sample_db
                 (ConversationWithDetails.id (entry_of alice 11)) = [])
    by reflexivity.
  split; [exact H1 |]. split; [exact H2 |]. split; [exact H3 |].
  exact (@conversation_without_messages alice sample_db (list_of alice)
           (entry_of alice 11) H1 H2 H3).
Defined.

(** ** Trimming *)




(** ** Sending a message *)

Lemma truthy_false (s : jsstring) : truthy s = false <-> s = [].
Proof.
  destruct s; simpl; split; intros H; auto; discriminate.
Qed.



(** Once the guard has passed, the compose box is emptied whatever the
    insert answered. *)
Lemma handleSendMessage_clears (conversation : ConversationWithDetails.t)
    (currentUser : Profile.t) (st : ChatWindowState) (db : DB)
    (now : timestamp) :
  trim (newMessage st) <> [] -> sending st = false ->
  fst (handleSendMessage conversation currentUser st db now)
  = mkChatWindowState [] false.
Proof.
  intros Hne Hs. unfold handleSendMessage. rewrite Hs.
  destruct (truthy (trim (newMessage st))) eqn:G.
  - simpl. destruct (insert_messages _ _ _ _ _ _). reflexivity.
  - apply truthy_false in G. contradiction.
Qed.

(** C7.  User 1 has typed "hi" into the chat window of conversation 10 and
    is no longer a participant of it: the insert is rejected by the
    policy, the store is unchanged, and the compose box is emptied all the
    same. *)
Theorem handleSendMessage_failed_insert_clears_compose_box :
  let st := mkChatWindowState (str "hi") false in
  let out := handleSendMessage (entry_of alice 10) alice st sample_db_left
                               500%Z in
  error (snd (insert_messages (session alice) sample_db_left
                (ConversationWithDetails.id (entry_of alice 10))
                (Profile.id alice) (trim (newMessage st)) 500%Z))
  = Some rls_violation
  /\ snd out = sample_db_left
  /\ newMessage st = str "hi"
  /\ newMessage (fst out) = []
  /\ newMessage (fst out) <> newMessage st.
Proof.
  vm_compute. repeat split; discriminate.
Qed.

(** ** Adding a contact *)

(** The second insert of [handleAddContact] names another user in
    [user_id], so the insert policy rejects it: the reverse row is there
    afterwards only if it was there before. *)
Lemma handleAddContact_reverse_row (currentUser : Profile.t) (db : DB)
    (userId : uuid) (now : timestamp) :
  userId <> Profile.id currentUser ->
  contact_pair_exists (handleAddContact currentUser db userId now)
                      userId (Profile.id currentUser)
  = contact_pair_exists db userId (Profile.id currentUser).
Proof.
  intros Hne. unfold handleAddContact, session.
  destruct (insert_contacts (Profile.id currentUser) db
              (Profile.id currentUser) userId now) as [db1 r1] eqn:E1.
  assert (H1 : contact_pair_exists db1 userId (Profile.id currentUser)
               = contact_pair_exists db userId (Profile.id currentUser)).
  { unfold insert_contacts in E1.
    repeat match type of E1 with
           | (if ?b then _ else _) = _ =>
               destruct b; [injection E1 as <- _; reflexivity |]
           end.
    injection E1 as <- _. unfold contact_pair_exists. simpl.
    rewrite existsb_app. simpl.
    destruct (Nat.eqb_spec (Profile.id currentUser) userId) as [E | _];
      [congruence |].
    simpl. now rewrite !orb_false_r. }
  unfold insert_contacts. unfold contacts_insert_policy at 1. simpl.
  destruct (Nat.eqb_spec (Profile.id currentUser) userId) as [E | _];
    [congruence |].
  simpl. exact H1.
Qed.

(** C4.  User 2 adds user 3 in a store that holds neither (2, 3) nor
    (3, 2): the row (2, 3) is inserted, the insert of (3, 2) is rejected by
    the contacts insert policy, and no row (3, 2) exists afterwards. *)
Theorem handleAddContact_reverse_row_missing :
  let db' := handleAddContact bob sample_db 3 7%Z in
  contact_pair_exists sample_db 2 3 = false
  /\ contact_pair_exists sample_db 3 2 = false
  /\ contact_pair_exists db' 2 3 = true
  /\ error (snd (insert_contacts (session bob)
                   (fst (insert_contacts (session bob) sample_db 2 3 7%Z))
                   3 2 7%Z))
     = Some rls_violation
  /\ contact_pair_exists db' 3 2 = false
  /\ contacts db' = contacts sample_db ++ [Contact.mk 50 2 3 7%Z].
Proof.
  vm_compute. repeat split.
Qed.

(** ** Selecting contacts for a group: no repetitions *)

(** Toggling a contact keeps the selection free of repetitions. *)
Lemma toggleContactSelection_distinct (prev : list uuid) (contactId : uuid) :
  distinct_ids prev = true ->
  distinct_ids (toggleContactSelection prev contactId) = true.
Proof.
  unfold toggleContactSelection. intros H.
  destruct (includes prev contactId) eqn:E.
  - clear E. induction prev as [| x l IH]; simpl; auto.
    simpl in H. apply andb_true_iff in H. destruct H as [Hx Hl].
    destruct (x =? contactId); simpl; auto.
    rewrite IH by assumption. rewrite andb_true_r.
    apply negb_true_iff in Hx. apply negb_true_iff, not_true_is_false.
    intros H. apply existsb_exists in H. destruct H as [y [Hy Ey]].
    apply filter_In in Hy.
    assert (existsb (Nat.eqb x) l = true); [| congruence].
    apply existsb_exists. exists y. tauto.
  - induction prev as [| x l IH]; simpl; auto.
    simpl in H, E. apply andb_true_iff in H. destruct H as [Hx Hl].
    apply orb_false_iff in E. destruct E as [Ex El].
    rewrite IH by assumption. rewrite andb_true_r.
    apply negb_true_iff in Hx. unfold uuid in *.
    rewrite existsb_app, Hx. simpl.
    rewrite Nat.eqb_sym, Ex. reflexivity.
Qed.

(** ** The inserts maintain the integrity of the store *)

Lemma integrity_true (db : DB) :
  integrity db = true
  <-> conversations_pk db = true /\ contacts_ok db = true
      /\ participants_fk db = true /\ participants_unique db = true
      /\ uuids_allocated db = true.
Proof.
  unfold integrity. rewrite !andb_true_iff. tauto.
Qed.

Lemma allocated_below_next (l : list Conversation.t) (n : uuid) :
  forallb (fun c => Conversation.id c <? n) l = true ->
  forallb (fun c => Conversation.id c <? S n) l = true.
Proof.
  rewrite !forallb_forall. intros H c Hc. specialize (H c Hc).
  apply Nat.ltb_lt in H. apply Nat.ltb_lt. lia.
Qed.

Lemma distinct_ids_snoc (l : list uuid) (x : uuid) :
  distinct_ids l = true -> existsb (Nat.eqb x) l = false ->
  distinct_ids (l ++ [x]) = true.
Proof.
  induction l as [| y l IH]; simpl; auto.
  intros H Hx. apply andb_true_iff in H. destruct H as [Hy Hl].
  apply orb_false_iff in Hx. destruct Hx as [Hxy Hx].
  rewrite IH by assumption. rewrite andb_true_r.
  apply negb_true_iff in Hy. unfold uuid in *.
  rewrite existsb_app, Hy. simpl. now rewrite Nat.eqb_sym, Hxy.
Qed.

Lemma distinct_pairs_snoc (l : list (uuid * uuid)) (k : uuid * uuid) :
  distinct_pairs l = true -> existsb (same_pair k) l = false ->
  distinct_pairs (l ++ [k]) = true.
Proof.
  induction l as [| y l IH]; simpl; auto.
  intros H Hk. apply andb_true_iff in H. destruct H as [Hy Hl].
  apply orb_false_iff in Hk. destruct Hk as [Hky Hk].
  rewrite IH by assumption. rewrite andb_true_r.
  apply negb_true_iff in Hy. rewrite existsb_app, Hy. simpl.
  unfold same_pair in *. now rewrite (Nat.eqb_sym (fst y)),
                               (Nat.eqb_sym (snd y)), Hky.
Qed.

Lemma participant_pair_exists_keys (db : DB) (conv user : uuid) :
  existsb (same_pair (conv, user))
          (map participant_key (conversation_participants db))
  = participant_pair_exists db conv user.
Proof.
  unfold participant_pair_exists.
  induction (conversation_participants db) as [| r l IH]; simpl; auto.
  rewrite IH. unfold same_pair, participant_key. simpl.
  now rewrite (Nat.eqb_sym conv), (Nat.eqb_sym user).
Qed.

Lemma insert_messages_integrity (uid : uuid) (db : DB) (conv sender : uuid)
    (content : jsstring) (now : timestamp) :
  integrity db = true ->
  integrity (fst (insert_messages uid db conv sender content now)) = true.
Proof.
  intros H. unfold insert_messages.
  repeat match goal with
         | |- context [if ?b then _ else _] => destruct b; [exact H |]
         end.
  apply integrity_true in H. apply integrity_true.
  destruct H as [H1 [H2 [H3 [H4 H5]]]]. repeat split; auto.
  now apply allocated_below_next.
Qed.

Lemma insert_contacts_integrity (uid : uuid) (db : DB) (user contact : uuid)
    (now : timestamp) :
  integrity db = true ->
  integrity (fst (insert_contacts uid db user contact now)) = true.
Proof.
  intros H. unfold insert_contacts.
  destruct (negb (contacts_insert_policy uid _)); [exact H |].
  destruct (user =? contact) eqn:Hne; [exact H |].
  destruct (contact_pair_exists db user contact); [exact H |].
  destruct (profile_exists db user && profile_exists db contact) eqn:Hfk;
    [| exact H].
  apply integrity_true in H. apply integrity_true.
  destruct H as [H1 [H2 [H3 [H4 H5]]]]. repeat split; auto.
  - unfold contacts_ok, profile_exists in *. simpl.
    rewrite forallb_app, H2. simpl. rewrite Hne.
    apply andb_true_iff in Hfk. destruct Hfk as [-> ->]. reflexivity.
  - now apply allocated_below_next.
Qed.

Lemma insert_conversations_integrity (uid : uuid) (db : DB)
    (ty : conversation_type) (nm : option jsstring) (creator : uuid)
    (now : timestamp) :
  integrity db = true ->
  integrity (fst (insert_conversations uid db ty nm creator now)) = true.
Proof.
  intros H. unfold insert_conversations.
  repeat match goal with
         | |- context [if ?b then _ else _] => destruct b; [exact H |]
         end.
  apply integrity_true in H. apply integrity_true.
  destruct H as [H1 [H2 [H3 [H4 H5]]]]. repeat split; auto.
  - unfold conversations_pk in *. simpl. rewrite map_app. simpl.
    apply distinct_ids_snoc; auto.
    apply not_true_is_false. intros E. apply existsb_exists in E.
    destruct E as [x [Hx E]]. apply Nat.eqb_eq in E. subst x.
    apply in_map_iff in Hx. destruct Hx as [c [Hid Hc]].
    unfold uuids_allocated in H5. rewrite forallb_forall in H5.
    specialize (H5 c Hc). apply Nat.ltb_lt in H5. lia.
  - unfold participants_fk in *. rewrite forallb_forall in *.
    intros cp Hcp. specialize (H3 cp Hcp).
    apply andb_true_iff in H3. destruct H3 as [Hc Hp].
    unfold conversation_exists, profile_exists in *. simpl.
    rewrite existsb_app, Hc, Hp. reflexivity.
  - unfold uuids_allocated in *. simpl. rewrite forallb_app. simpl.
    rewrite (allocated_below_next _ _ H5).
    rewrite (proj2 (Nat.ltb_lt _ _) (Nat.lt_succ_diag_r _)). reflexivity.
Qed.

Lemma insert_participant_row_integrity (uid : uuid) (db db' : DB)
    (row : uuid * uuid) (now : timestamp) :
  integrity db = true ->
  insert_participant_row uid db row now = inl db' ->
  integrity db' = true.
Proof.
  intros H. unfold insert_participant_row. destruct row as [conv user].
  destruct (negb (conversation_participants_insert_policy uid db _));
    [discriminate |].
  destruct (participant_pair_exists db conv user) eqn:Hnew; [discriminate |].
  destruct (conversation_exists db conv && profile_exists db user) eqn:Hfk;
    [| discriminate].
  simpl. intros E. injection E as <-.
  apply integrity_true in H. apply integrity_true.
  destruct H as [H1 [H2 [H3 [H4 H5]]]]. repeat split; auto.
  - unfold participants_fk in *. simpl. rewrite forallb_app. simpl.
    unfold conversation_exists, profile_exists in *. simpl.
    rewrite H3, Hfk. reflexivity.
  - unfold participants_unique in *. simpl. rewrite map_app. simpl.
    apply distinct_pairs_snoc; auto.
    unfold new_participant, participant_key at 1. simpl.
    now rewrite participant_pair_exists_keys.
  - now apply allocated_below_next.
Qed.

Lemma insert_conversation_participants_integrity (uid : uuid) (db : DB)
    (rows : list (uuid * uuid)) (now : timestamp) :
  integrity db = true ->
  integrity (fst (insert_conversation_participants uid db rows now)) = true.
Proof.
  intros H. unfold insert_conversation_participants.
  destruct (insert_participant_rows uid db rows now) as [db' | e] eqn:E;
    [| exact H].
  simpl. revert db db' H E.
  induction rows as [| row rows IH]; simpl; intros db db' H E.
  - now injection E as <-.
  - destruct (insert_participant_row uid db row now) as [db1 | e] eqn:E1;
      [| discriminate].
    apply (IH db1); auto.
    eapply insert_participant_row_integrity; eauto.
Qed.

(** The handlers that write keep the store intact as well. *)
Lemma handlers_integrity (currentUser : Profile.t) (db : DB)
    (now : timestamp) :
  integrity db = true ->
  (forall conversation st,
      integrity (snd (handleSendMessage conversation currentUser st db now))
      = true)
  /\ (forall userId,
         integrity (handleAddContact currentUser db userId now) = true)
  /\ (forall contactId,
         integrity (store (handleCreatePrivateChat currentUser db contactId
                             now)) = true)
  /\ (forall selectedContacts groupName out,
         handleCreateGroupChat currentUser db selectedContacts groupName now
         = Some out ->
         integrity (store out) = true).
Proof.
  intros H. repeat split.
  - intros conversation st. unfold handleSendMessage.
    destruct (_ || _); [exact H |].
    assert (Hi := insert_messages_integrity (session currentUser) db
                    (ConversationWithDetails.id conversation)
                    (Profile.id currentUser) (trim (newMessage st)) now H).
    destruct (insert_messages _ _ _ _ _ _). exact Hi.
  - intros userId. unfold handleAddContact.
    assert (H1 := insert_contacts_integrity (session currentUser) db
                    (Profile.id currentUser) userId now H).
    destruct (insert_contacts _ db _ _ _) as [db1 r1]. simpl in H1.
    assert (H2 := insert_contacts_integrity (session currentUser) db1
                    userId (Profile.id currentUser) now H1).
    destruct (insert_contacts _ db1 _ _ _) as [db2 r2]. exact H2.
  - intros contactId. unfold handleCreatePrivateChat.
    destruct (find _ _); [exact H |].
    assert (H1 := insert_conversations_integrity (session currentUser) db
                    private None (Profile.id currentUser) now H).
    destruct (insert_conversations _ _ _ _ _ _) as [db1 r]. simpl in H1.
    destruct (error r); [exact H1 |].
    destruct (data r) as [newConv |]; [| exact H1].
    assert (H2 := insert_conversation_participants_integrity
                    (session currentUser) db1
                    [(Conversation.id newConv, Profile.id currentUser);
                     (Conversation.id newConv, contactId)] now H1).
    destruct (insert_conversation_participants _ _ _ _). exact H2.
  - intros selectedContacts groupName out. unfold handleCreateGroupChat.
    destruct (_ || _); [discriminate |].
    assert (H1 := insert_conversations_integrity (session currentUser) db
                    group (Some (trim groupName)) (Profile.id currentUser)
                    now H).
    destruct (insert_conversations _ _ _ _ _ _) as [db1 r]. simpl in H1.
    intros E. injection E as <-.
    destruct (error r); [exact H1 |].
    destruct (data r) as [newConv |]; [| exact H1].
    assert (H2 := insert_conversation_participants_integrity
                    (session currentUser) db1
                    ((Conversation.id newConv, Profile.id currentUser)
                     :: map (fun contactId =>
                               (Conversation.id newConv, contactId))
                            selectedContacts) now H1).
    destruct (insert_conversation_participants _ _ _ _). exact H2.
Qed.

(** ** Relative times in the conversation list *)

(** X3.  [formatTime] says 'Just now' for less than a minute (and for a
    timestamp in the future), counts 1 to 59 minutes, 1 to 23 hours and 1
    to 6 days, each the whole number of units elapsed, and gives the date
    from seven days on. *)
Theorem formatTime_ranges :
  forall now timestamp : timestamp,
    match formatTime now timestamp with
    | JustNow => (now - timestamp < 60000)%Z
    | MinutesAgo n =>
        (1 <= n <= 59 /\ 60000 * n <= now - timestamp < 60000 * (n + 1))%Z
    | HoursAgo n =>
        (1 <= n <= 23
         /\ 3600000 * n <= now - timestamp < 3600000 * (n + 1))%Z
    | DaysAgo n =>
        (1 <= n <= 6
         /\ 86400000 * n <= now - timestamp < 86400000 * (n + 1))%Z
    | LocaleDate date =>
        date = timestamp /\ (604800000 <= now - timestamp)%Z
    end.
Proof.
  intros now t. unfold formatTime.
  set (d := (now - t)%Z).
  assert (Hm := Z.div_mod d 60000 ltac:(lia)).
  assert (Hm' := Z.mod_pos_bound d 60000 ltac:(lia)).
  assert (Hh := Z.div_mod d 3600000 ltac:(lia)).
  assert (Hh' := Z.mod_pos_bound d 3600000 ltac:(lia)).
  assert (Hd := Z.div_mod d 86400000 ltac:(lia)).
  assert (Hd' := Z.mod_pos_bound d 86400000 ltac:(lia)).
  destruct (Z.ltb_spec (d / 60000) 1); [lia |].
  destruct (Z.ltb_spec (d / 60000) 60); [lia |].
  destruct (Z.ltb_spec (d / 3600000) 24); [lia |].
  destruct (Z.ltb_spec (d / 86400000) 7); [lia |].
  split; [reflexivity | lia].
Qed.

(** ** Selecting contacts for a group *)

Lemma includes_false (l : list uuid) (x : uuid) :
  includes l x = false <-> ~ In x l.
Proof.
  rewrite <- includes_In. destruct (includes l x); split; intros H;
    try reflexivity; try discriminate; try (intro; discriminate).
  exfalso. apply H. reflexivity.
Qed.

(** X15.  [toggleContactSelection] flips whether the contact is selected, keeps
    every other contact as it was, never introduces a repetition, and
    selecting then unselecting a contact gives the selection back. *)
Theorem toggleContactSelection_flips :
  forall (prev : list uuid) (contactId : uuid),
    (In contactId (toggleContactSelection prev contactId)
     <-> ~ In contactId prev)
    /\ (forall other, other <> contactId ->
          (In other (toggleContactSelection prev contactId)
           <-> In other prev))
    /\ (distinct_ids prev = true ->
        distinct_ids (toggleContactSelection prev contactId) = true)
    /\ (~ In contactId prev ->
        toggleContactSelection (toggleContactSelection prev contactId)
                               contactId = prev).
Proof.
  intros prev x. unfold toggleContactSelection at 1 2 3.
  destruct (includes prev x) eqn:E.
  - assert (Hin : In x prev) by (now apply includes_In).
    split; [| split; [| split]].
    + split; [| intros H; contradiction].
      intros H. apply filter_In in H. destruct H as [_ H].
      now rewrite Nat.eqb_refl in H.
    + intros other Hne. rewrite filter_In. split; [tauto |].
      intros H. split; auto.
      apply negb_true_iff. now apply Nat.eqb_neq.
    + intros H.
      assert (Ht := toggleContactSelection_distinct prev x H).
      unfold toggleContactSelection in Ht. now rewrite E in Ht.
    + intros H. contradiction.
  - assert (Hin : ~ In x prev) by (now apply includes_false).
    split; [| split; [| split]].
    + split; [intros _; exact Hin |].
      intros _. apply in_or_app. right. now left.
    + intros other Hne. rewrite in_app_iff. simpl. split; [| tauto].
      intros [H | [H | []]]; auto. congruence.
    + intros H.
      assert (Ht := toggleContactSelection_distinct prev x H).
      unfold toggleContactSelection in Ht. now rewrite E in Ht.
    + intros _. unfold toggleContactSelection. rewrite E.
      assert (E' : includes (prev ++ [x]) x = true).
      { apply includes_In. apply in_or_app. right. now left. }
      rewrite E'. rewrite filter_app. simpl. rewrite Nat.eqb_refl. simpl.
      rewrite app_nil_r. apply filter_all. intros y Hy.
      apply negb_true_iff. apply Nat.eqb_neq. intros ->. contradiction.
Qed.

Lemma toggleContactSelection_flips_witness :
  distinct_ids [2; 3] = true
  /\ toggleContactSelection [2; 3] 3 = [2]
  /\ distinct_ids (toggleContactSelection [2; 3] 3) = true
  /\ ~ In 3 [2]
  /\ toggleContactSelection (toggleContactSelection [2] 3) 3 = [2].
Proof.
  assert (Hno : ~ In 3 [2]) by (simpl; intros [H | []]; discriminate).
  split; [reflexivity |]. split; [reflexivity |].
  split; [| split; [exact Hno |]].
  - apply (proj1 (proj2 (proj2 (toggleContactSelection_flips [2; 3] 3)))).
    reflexivity.
  - apply (proj2 (proj2 (proj2 (toggleContactSelection_flips [2] 3)))).
    exact Hno.
Defined.

(** ** Removing a contact *)

Lemma contact_pair_exists_true (db : DB) (u c : uuid) :
  contact_pair_exists db u c = true
  <-> exists r, In r (contacts db)
                /\ Contact.user_id r = u /\ Contact.contact_id r = c.
Proof.
  unfold contact_pair_exists. rewrite existsb_exists.
  split; intros [r [Hr H]]; exists r; split; auto.
  - apply andb_true_iff in H. destruct H as [H1 H2].
    apply Nat.eqb_eq in H1, H2. auto.
  - destruct H as [-> ->]. now rewrite !Nat.eqb_refl.
Qed.

(** The two deletes of [handleRemoveContact] amount to one: the second
    names another user's rows, which the delete policy hides from the
    caller. *)
Lemma handleRemoveContact_contacts (currentUser : Profile.t) (db : DB)
    (contactId : uuid) :
  handleRemoveContact currentUser db contactId
  = set_contacts db
      (filter (fun r => negb ((Contact.user_id r =? Profile.id currentUser)
                              && (Contact.contact_id r =? contactId)))
              (contacts db))
      (next_uuid db).
Proof.
  unfold handleRemoveContact, delete_contacts, session,
    contacts_delete_policy. simpl.
  unfold set_contacts. simpl. f_equal.
  rewrite filter_filter. apply filter_ext. intros r.
  destruct (Nat.eqb_spec (Contact.user_id r) (Profile.id currentUser)),
    (Nat.eqb_spec (Contact.contact_id r) contactId),
    (Nat.eqb_spec (Contact.user_id r) contactId),
    (Nat.eqb_spec (Contact.contact_id r) (Profile.id currentUser)),
    (Nat.eqb_spec (Profile.id currentUser) (Contact.user_id r));
    simpl; try reflexivity; congruence.
Qed.

(** X12.  [handleRemoveContact] removes the caller's own row for the contact and
    nothing else: every row of another user, the contact's reverse row
    among them, stays, no row appears, and the other tables are as
    before. *)
Theorem handleRemoveContact_own_row_only :
  forall (currentUser : Profile.t) (db : DB) (contactId : uuid),
    let db' := handleRemoveContact currentUser db contactId in
    contact_pair_exists db' (Profile.id currentUser) contactId = false
    /\ (forall r, In r (contacts db) ->
                  Contact.user_id r <> Profile.id currentUser ->
                  In r (contacts db'))
    /\ (forall r, In r (contacts db) ->
                  Contact.contact_id r <> contactId ->
                  In r (contacts db'))
    /\ (forall r, In r (contacts db') -> In r (contacts db))
    /\ set_contacts db' (contacts db) (next_uuid db) = db.
Proof.
  intros currentUser db contactId db'. unfold db'.
  rewrite handleRemoveContact_contacts. simpl.
  split; [| split; [| split; [| split]]].
  - apply not_true_is_false. intros H. apply contact_pair_exists_true in H.
    destruct H as [r [Hr [Hu Hc]]]. simpl in Hr. apply filter_In in Hr.
    destruct Hr as [_ Hr]. rewrite Hu, Hc, !Nat.eqb_refl in Hr. discriminate.
  - intros r Hr Hne. apply filter_In. split; auto.
    apply Nat.eqb_neq in Hne. now rewrite Hne.
  - intros r Hr Hne. apply filter_In. split; auto.
    apply Nat.eqb_neq in Hne. now rewrite Hne, andb_false_r.
  - intros r Hr. apply filter_In in Hr. tauto.
  - destruct db; reflexivity.
Qed.

Lemma insert_contacts_other_rejected (uid : uuid) (db : DB)
    (user contact : uuid) (now : timestamp) :
  uid <> user ->
  insert_contacts uid db user contact now = (db, failed rls_violation).
Proof.
  intros Hne. unfold insert_contacts, contacts_insert_policy. simpl.
  destruct (Nat.eqb_spec uid user); [congruence | reflexivity].
Qed.

Lemma insert_contacts_own (uid : uuid) (db : DB) (contact : uuid)
    (now : timestamp) :
  contact <> uid ->
  contact_pair_exists db uid contact = false ->
  profile_exists db uid = true ->
  profile_exists db contact = true ->
  insert_contacts uid db uid contact now
  = (set_contacts db (contacts db ++ [new_contact db uid contact now])
       (S (next_uuid db)),
     ok (new_contact db uid contact now)).
Proof.
  intros Hne Hnew Hme Hother. unfold insert_contacts, contacts_insert_policy.
  simpl. rewrite Nat.eqb_refl. simpl.
  destruct (Nat.eqb_spec uid contact); [congruence |].
  rewrite Hnew, Hme, Hother. reflexivity.
Qed.

(** What [handleAddContact] does to the contacts table when the caller
    adds another profile that is not yet a contact. *)
Lemma handleAddContact_contacts (currentUser : Profile.t) (db : DB)
    (userId : uuid) (now : timestamp) :
  userId <> Profile.id currentUser ->
  contact_pair_exists db (Profile.id currentUser) userId = false ->
  profile_exists db (Profile.id currentUser) = true ->
  profile_exists db userId = true ->
  handleAddContact currentUser db userId now
  = set_contacts db
      (contacts db ++ [new_contact db (Profile.id currentUser) userId now])
      (S (next_uuid db)).
Proof.
  intros Hne Hnew Hme Hother. unfold handleAddContact, session.
  rewrite insert_contacts_own by assumption.
  rewrite insert_contacts_other_rejected by congruence.
  reflexivity.
Qed.

(** X13.  Adding a profile that was not a contact and then removing it gives the
    contacts table back. *)
Theorem add_then_remove_contact :
  forall (currentUser : Profile.t) (db : DB) (userId : uuid)
         (now : timestamp),
    userId <> Profile.id currentUser ->
    contact_pair_exists db (Profile.id currentUser) userId = false ->
    profile_exists db (Profile.id currentUser) = true ->
    profile_exists db userId = true ->
    let added := handleAddContact currentUser db userId now in
    contact_pair_exists added (Profile.id currentUser) userId = true
    /\ contacts (handleRemoveContact currentUser added userId) = contacts db.
Proof.
  intros currentUser db userId now Hne Hnew Hme Hother added. unfold added.
  rewrite handleAddContact_contacts by assumption. split.
  - unfold contact_pair_exists. simpl. rewrite existsb_app. simpl.
    rewrite !Nat.eqb_refl. simpl. apply orb_true_r.
  - rewrite handleRemoveContact_contacts. simpl.
    rewrite filter_app. simpl. rewrite !Nat.eqb_refl. simpl.
    rewrite app_nil_r. apply filter_all. intros r Hr.
    apply negb_true_iff, not_true_is_false. intros E.
    assert (contact_pair_exists db (Profile.id currentUser) userId = true);
      [| congruence].
    apply existsb_exists. exists r. auto.
Qed.

Lemma add_then_remove_contact_witness :
  3 <> Profile.id bob
  /\ contact_pair_exists sample_db (Profile.id bob) 3 = false
  /\ profile_exists sample_db (Profile.id bob) = true
  /\ profile_exists sample_db 3 = true
  /\ contact_pair_exists (handleAddContact bob sample_db 3 7%Z)
                         (Profile.id bob) 3 = true
  /\ contacts (handleRemoveContact bob (handleAddContact bob sample_db 3 7%Z)
                 3)
     = contacts sample_db.
Proof.
  assert (Hne : 3 <> Profile.id bob) by discriminate.
  split; [exact Hne |]. split; [reflexivity |].
  split; [reflexivity |]. split; [reflexivity |].
  exact (@add_then_remove_contact bob sample_db 3 7%Z Hne eq_refl eq_refl
           eq_refl).
Defined.

Lemma handleRemoveContact_own_row_only_witness :
  contact_pair_exists sample_db (Profile.id alice) 2 = true
  /\ contact_pair_exists (handleRemoveContact alice sample_db 2)
                         (Profile.id alice) 2 = false
  /\ In (Contact.mk 21 1 3 5%Z) (contacts sample_db)
  /\ In (Contact.mk 21 1 3 5%Z)
        (contacts (handleRemoveContact alice sample_db 2)).
Proof.
  assert (Hin : In (Contact.mk 21 1 3 5%Z) (contacts sample_db))
    by (simpl; tauto).
  split; [reflexivity |].
  split; [apply (handleRemoveContact_own_row_only alice sample_db 2) |].
  split; [exact Hin |].
  apply (proj1 (proj2 (proj2 (handleRemoveContact_own_row_only
                                alice sample_db 2)))
           (Contact.mk 21 1 3 5%Z) Hin).
  discriminate.
Defined.

(** ** The users offered as new contacts *)

Lemma loadContacts_In (currentUser : Profile.t) (db : DB) (r : Contact.t) :
  In r (loadContacts currentUser db)
  <-> In r (contacts db) /\ Contact.user_id r = Profile.id currentUser.
Proof.
  unfold loadContacts, select_contacts, contacts_select_policy, session.
  rewrite !filter_In, Nat.eqb_eq. intuition.
  apply Nat.eqb_eq. congruence.
Qed.

Lemma loadContacts_includes (currentUser : Profile.t) (db : DB) (u : uuid) :
  includes (map Contact.contact_id (loadContacts currentUser db)) u
  = contact_pair_exists db (Profile.id currentUser) u.
Proof.
  destruct (contact_pair_exists db (Profile.id currentUser) u) eqn:E.
  - apply contact_pair_exists_true in E. destruct E as [r [Hr [Hu Hc]]].
    apply includes_In. apply in_map_iff. exists r. split; auto.
    apply loadContacts_In. auto.
  - apply includes_false. intros H. apply in_map_iff in H.
    destruct H as [r [Hc Hr]]. apply loadContacts_In in Hr.
    assert (contact_pair_exists db (Profile.id currentUser) u = true);
      [| congruence].
    apply contact_pair_exists_true. exists r. tauto.
Qed.

(** X14.  Whatever is searched for, a user offered in the add-contact list is a
    stored profile other than the caller's that is not yet a contact of
    the caller; and once [handleAddContact] has been run for that user, a
    reload no longer offers it. *)
Theorem availableUsers_not_yet_contacts :
  forall (toLowerCase : jsstring -> jsstring) (currentUser : Profile.t)
         (db : DB) (searchQuery : jsstring) (user : Profile.t)
         (now : timestamp),
    In user (availableUsers toLowerCase (loadContacts currentUser db)
               (loadAllUsers currentUser db) searchQuery) ->
    profile_exists db (Profile.id currentUser) = true ->
    (In user (profiles db)
     /\ Profile.id user <> Profile.id currentUser
     /\ contact_pair_exists db (Profile.id currentUser) (Profile.id user)
        = false)
    /\ forall searchQuery',
        let db' := handleAddContact currentUser db (Profile.id user) now in
        ~ In user (availableUsers toLowerCase (loadContacts currentUser db')
                     (loadAllUsers currentUser db') searchQuery').
Proof.
  intros toLowerCase currentUser db q user now Hin Hme.
  unfold availableUsers in Hin. apply filter_In in Hin.
  destruct Hin as [Hall Htest]. apply andb_true_iff in Htest.
  destruct Htest as [Hnot _]. apply negb_true_iff in Hnot.
  rewrite loadContacts_includes in Hnot.
  unfold loadAllUsers, select_profiles in Hall. apply filter_In in Hall.
  destruct Hall as [Hp Hne]. apply filter_In in Hp. destruct Hp as [Hp _].
  apply negb_true_iff in Hne. apply Nat.eqb_neq in Hne.
  split; [auto |].
  intros q' db' H. unfold availableUsers in H. apply filter_In in H.
  destruct H as [_ Htest]. apply andb_true_iff in Htest.
  destruct Htest as [Hnot' _]. apply negb_true_iff in Hnot'.
  rewrite loadContacts_includes in Hnot'.
  assert (Hex : profile_exists db (Profile.id user) = true).
  { apply existsb_exists. exists user. split; auto. apply Nat.eqb_refl. }
  unfold db' in Hnot'.
  rewrite handleAddContact_contacts in Hnot' by assumption.
  unfold contact_pair_exists in Hnot'. simpl in Hnot'.
  rewrite existsb_app in Hnot'. simpl in Hnot'.
  rewrite !Nat.eqb_refl in Hnot'. simpl in Hnot'.
  rewrite orb_true_r in Hnot'. discriminate.
Qed.

Lemma availableUsers_not_yet_contacts_witness :
  availableUsers ascii_lower (loadContacts bob sample_db)
                 (loadAllUsers bob sample_db) (str "CAR")
  = [carol]
  /\ profile_exists sample_db (Profile.id bob) = true
  /\ contact_pair_exists sample_db (Profile.id bob) (Profile.id carol)
     = false
  /\ ~ In carol
       (availableUsers ascii_lower
          (loadContacts bob (handleAddContact bob sample_db 3 7%Z))
          (loadAllUsers bob (handleAddContact bob sample_db 3 7%Z))
          (str "CAR")).
Proof.
  assert (Hin : In carol (availableUsers ascii_lower
                            (loadContacts bob sample_db)
                            (loadAllUsers bob sample_db) (str "CAR")))
    by (vm_compute; tauto).
  destruct (@availableUsers_not_yet_contacts ascii_lower bob sample_db
              (str "CAR") carol 7%Z Hin eq_refl) as [[_ [_ H1]] H2].
  split; [reflexivity |]. split; [reflexivity |]. split; [exact H1 |].
  exact (H2 (str "CAR")).
Defined.

(** ** Read marks *)

Lemma map_unchanged {A} (f : A -> A) (l : list A) :
  (forall x, In x l -> f x = x) -> map f l = l.
Proof.
  induction l as [| a l IH]; simpl; intros H; [reflexivity |].
  rewrite (H a (or_introl eq_refl)). f_equal. apply IH. auto.
Qed.

Lemma markAsRead_same_store
    (conversation : ConversationWithDetails.t) (currentUser : Profile.t)
    (db : DB) (now : timestamp) :
  markAsRead conversation currentUser db now = db.
Proof.
  unfold markAsRead, update_last_read_at,
    conversation_participants_update_policy. simpl.
  rewrite map_unchanged.
  - destruct db; reflexivity.
  - intros r _. now rewrite andb_false_r.
Qed.

(** X8.  [markAsRead] changes no row: conversation_participants has no policy
    for updates, so the update matches nothing.  The participant's
    last_read_at stays as it was, and with it every unread count the list
    shows afterwards. *)
Theorem markAsRead_changes_nothing :
  forall (conversation : ConversationWithDetails.t) (currentUser : Profile.t)
         (db : DB) (now : timestamp),
    markAsRead conversation currentUser db now = db
    /\ forall viewer,
        loadConversations viewer (markAsRead conversation currentUser db now)
        = loadConversations viewer db.
Proof.
  intros conversation currentUser db now.
  assert (H : markAsRead conversation currentUser db now = db)
    by apply markAsRead_same_store.
  split; [exact H |]. intros viewer. now rewrite H.
Qed.

Lemma handler_step_participants (db db' : DB) :
  handler_step db db' ->
  exists added,
    conversation_participants db' = conversation_participants db ++ added
    /\ Forall (fun cp => ConversationParticipant.last_read_at cp = None)
              added.
Proof.
  assert (Hsame : forall d, conversation_participants d
                            = conversation_participants db ->
                  exists added,
                    conversation_participants d
                    = conversation_participants db ++ added
                    /\ Forall (fun cp =>
                                 ConversationParticipant.last_read_at cp
                                 = None) added).
  { intros d Hd. exists []. rewrite app_nil_r. auto. }
  assert (Hrows : forall uid rows now d0 d,
             insert_participant_rows uid d0 rows now = inl d ->
             exists added,
               conversation_participants d
               = conversation_participants d0 ++ added
               /\ Forall (fun cp =>
                            ConversationParticipant.last_read_at cp = None)
                         added).
  { intros uid rows now. induction rows as [| [c u] rows IH];
      intros d0 d H; cbn [insert_participant_rows] in H.
    - injection H as <-. exists []. rewrite app_nil_r. auto.
    - destruct (insert_participant_row uid d0 (c, u) now) as [d1 | e] eqn:E;
        [| discriminate].
      unfold insert_participant_row in E.
      repeat match type of E with
             | (if ?b then _ else _) = _ => destruct b; [discriminate |]
             end.
      injection E as <-. destruct (IH _ _ H) as [added [Hadd Hall]].
      simpl in Hadd. rewrite <- app_assoc in Hadd. simpl in Hadd.
      eexists. split; [exact Hadd |]. constructor; auto. }
  assert (Hinsert : forall uid rows now d0,
             exists added,
               conversation_participants
                 (fst (insert_conversation_participants uid d0 rows now))
               = conversation_participants d0 ++ added
               /\ Forall (fun cp =>
                            ConversationParticipant.last_read_at cp = None)
                         added).
  { intros uid rows now d0. unfold insert_conversation_participants.
    destruct (insert_participant_rows uid d0 rows now) as [d | e] eqn:E;
      simpl; [eauto |].
    exists []. rewrite app_nil_r. auto. }
  assert (Hconv : forall uid ty nm creator now,
             conversation_participants
               (fst (insert_conversations uid db ty nm creator now))
             = conversation_participants db).
  { intros. unfold insert_conversations.
    repeat match goal with
           | |- context [if ?b then _ else _] => destruct b; [reflexivity |]
           end.
    reflexivity. }
  intros Hstep. destruct Hstep.
  - apply Hsame. unfold handleSendMessage.
    destruct (_ || _); [reflexivity |].
    unfold insert_messages.
    repeat match goal with
           | |- context [if ?b then _ else _] => destruct b; [reflexivity |]
           end.
    reflexivity.
  - apply Hsame.
    now rewrite markAsRead_same_store.
  - apply Hsame. unfold handleAddContact, insert_contacts.
    repeat match goal with
           | |- context [if ?b then _ else _] => destruct b; simpl
           end; reflexivity.
  - apply Hsame. rewrite handleRemoveContact_contacts. reflexivity.
  - unfold handleCreatePrivateChat. destruct (find _ _); [now apply Hsame |].
    specialize (Hconv (session currentUser) private None
                  (Profile.id currentUser) now).
    destruct (insert_conversations _ _ _ _ _ _) as [db1 r]. simpl in Hconv.
    destruct (error r); [now apply Hsame |].
    destruct (data r) as [newConv |]; [| now apply Hsame].
    destruct (Hinsert (session currentUser)
                [(Conversation.id newConv, Profile.id currentUser);
                 (Conversation.id newConv, contactId)] now db1)
      as [added [Hadd Hall]].
    destruct (insert_conversation_participants _ _ _ _) as [db2 r2].
    simpl in *. exists added. rewrite Hadd, Hconv. auto.
  - unfold handleCreateGroupChat in H. destruct (_ || _); [discriminate |].
    specialize (Hconv (session currentUser) group (Some (trim groupName))
                  (Profile.id currentUser) now).
    destruct (insert_conversations _ _ _ _ _ _) as [db1 r]. simpl in Hconv.
    injection H as <-.
    destruct (error r); [now apply Hsame |].
    destruct (data r) as [newConv |]; [| now apply Hsame].
    destruct (Hinsert (session currentUser)
                ((Conversation.id newConv, Profile.id currentUser)
                 :: map (fun contactId =>
                           (Conversation.id newConv, contactId))
                        selectedContacts) now db1)
      as [added [Hadd Hall]].
    destruct (insert_conversation_participants _ _ _ _) as [db2 r2].
    simpl in *. exists added. rewrite Hadd, Hconv. auto.
  - apply Hsame. unfold handleSignOut, update_profiles_status.
    destruct (forallb _ _); reflexivity.
Qed.

Lemma read_marks_closure (db db' : DB) :
  handler_steps db db' ->
  exists added,
    conversation_participants db' = conversation_participants db ++ added
    /\ Forall (fun cp => ConversationParticipant.last_read_at cp = None)
              added.
Proof.
  intros Hsteps. induction Hsteps as [| db1 db2 _ IH Hstep].
  - exists []. rewrite app_nil_r. auto.
  - destruct IH as [added1 [H1 Hall1]].
    destruct (handler_step_participants Hstep) as [added2 [H2 Hall2]].
    exists (added1 ++ added2). rewrite H2, H1, app_assoc. split; auto.
    apply Forall_app. auto.
Qed.

(** X9.  However many handlers run, and whoever runs them, participant rows
    are only ever appended, without a read mark: no run sets the
    last_read_at of any row. *)
Theorem read_marks_never_set :
  forall db db' : DB,
    handler_steps db db' ->
    (exists added,
        conversation_participants db' = conversation_participants db ++ added
        /\ Forall (fun cp => ConversationParticipant.last_read_at cp = None)
                  added)
    /\ (never_read db = true -> never_read db' = true).
Proof.
  intros db db' Hsteps.
  assert (H := read_marks_closure Hsteps).
  split; [exact H |].
  destruct H as [added [Hadd Hall]]. unfold never_read. intros Hdb.
  rewrite Hadd, forallb_app, Hdb. simpl. apply forallb_forall.
  intros cp Hcp. rewrite Forall_forall in Hall. now rewrite (Hall cp Hcp).
Qed.

Lemma read_marks_never_set_witness :
  handler_steps sample_db
    (markAsRead (entry_of bob 10) bob sample_db_sent 600%Z)
  /\ ConversationParticipant.last_read_at bob_in_10 = None
  /\ In bob_in_10
        (conversation_participants
           (markAsRead (entry_of bob 10) bob sample_db_sent 600%Z))
  /\ exists added,
      conversation_participants
        (markAsRead (entry_of bob 10) bob sample_db_sent 600%Z)
      = conversation_participants sample_db ++ added.
Proof.
  assert (Hsteps : handler_steps sample_db
                     (markAsRead (entry_of bob 10) bob sample_db_sent 600%Z)).
  { eapply steps_more; [| apply step_markAsRead].
    eapply steps_more; [apply steps_none |].
    apply (step_handleSendMessage sample_db (entry_of alice 10) alice
             (mkChatWindowState (str " yo") false) 500%Z). }
  split; [exact Hsteps |]. split; [reflexivity |].
  split; [vm_compute; tauto |].
  destruct (proj1 (read_marks_never_set Hsteps)) as [added [Hadd _]].
  exists added. exact Hadd.
Defined.

(** ** Integrity along runs of the handlers *)

Lemma profile_exists_signed_out (user : Profile.t) (db : DB) (u : uuid) :
  profile_exists (handleSignOut user db) u = profile_exists db u.
Proof.
  unfold handleSignOut, update_profiles_status.
  destruct (forallb _ _); [| reflexivity].
  unfold profile_exists. simpl.
  induction (profiles db) as [| p l IH]; simpl; [reflexivity |].
  rewrite IH. destruct (_ && _); reflexivity.
Qed.

Lemma handler_step_integrity (db db' : DB) :
  handler_step db db' -> integrity db = true -> integrity db' = true.
Proof.
  intros Hstep H. destruct Hstep.
  - now apply (handlers_integrity currentUser db now H).
  - now rewrite markAsRead_same_store.
  - now apply (handlers_integrity currentUser db now H).
  - rewrite handleRemoveContact_contacts.
    apply integrity_true in H. apply integrity_true.
    destruct H as [H1 [H2 [H3 [H4 H5]]]]. repeat split; auto.
    unfold contacts_ok in *. simpl. rewrite forallb_forall in *.
    intros ct Hct. apply filter_In in Hct. destruct Hct as [Hct _].
    exact (H2 ct Hct).
  - now apply (handlers_integrity currentUser db now H).
  - eapply (handlers_integrity currentUser db now H); eauto.
  - apply integrity_true in H. apply integrity_true.
    destruct H as [H1 [H2 [H3 [H4 H5]]]].
    assert (Hrest : contacts (handleSignOut user db) = contacts db
                    /\ conversations (handleSignOut user db)
                       = conversations db
                    /\ conversation_participants (handleSignOut user db)
                       = conversation_participants db
                    /\ next_uuid (handleSignOut user db) = next_uuid db).
    { unfold handleSignOut, update_profiles_status.
      destruct (forallb _ _); repeat split. }
    destruct Hrest as [R1 [R2 [R3 R4]]].
    unfold conversations_pk, contacts_ok, participants_fk,
      participants_unique, uuids_allocated, conversation_exists in *.
    rewrite R1, R2, R3, R4. repeat split; auto.
    + rewrite forallb_forall in *. intros ct Hct.
      rewrite !profile_exists_signed_out. exact (H2 ct Hct).
    + rewrite forallb_forall in *. intros cp Hcp.
      rewrite profile_exists_signed_out. exact (H3 cp Hcp).
Qed.

Lemma handler_step_integrity_closure (db db' : DB) :
  handler_steps db db' -> integrity db = true -> integrity db' = true.
Proof.
  intros Hsteps H. induction Hsteps as [| db1 db2 _ IH Hstep]; auto.
  eapply handler_step_integrity; eauto.
Qed.

(** X11.  The constraints of the schema (primary key of conversations, the
    CHECK and foreign keys of contacts, the foreign keys and the UNIQUE of
    conversation_participants) hold after any number of handler runs on a
    store in which they hold. *)
Theorem handler_steps_integrity :
  forall db db' : DB,
    handler_steps db db' -> integrity db = true -> integrity db' = true.
Proof.
  intros db db' Hsteps H. eapply handler_step_integrity_closure; eauto.
Qed.

Lemma handler_steps_integrity_witness :
  handler_steps sample_db
    (store (handleCreatePrivateChat alice sample_db_sent 3 7%Z))
  /\ integrity sample_db = true
  /\ integrity (store (handleCreatePrivateChat alice sample_db_sent 3 7%Z))
     = true.
Proof.
  assert (Hsteps : handler_steps sample_db
                     (store (handleCreatePrivateChat alice sample_db_sent 3
                               7%Z))).
  { eapply steps_more; [| apply step_handleCreatePrivateChat].
    eapply steps_more; [apply steps_none |].
    apply (step_handleSendMessage sample_db (entry_of alice 10) alice
             (mkChatWindowState (str " yo") false) 500%Z). }
  split; [exact Hsteps |]. split; [reflexivity |].
  exact (handler_steps_integrity Hsteps eq_refl).
Defined.

(** ** Signing in and out *)

Lemma single_row_of_key (l : list Profile.t) (p : Profile.t) :
  distinct_ids (map Profile.id l) = true -> In p l ->
  filter (fun r => Profile.id r =? Profile.id p) l = [p].
Proof.
  induction l as [| a l IH]; simpl; [tauto |].
  intros Hd Hin. apply andb_true_iff in Hd. destruct Hd as [Ha Hl].
  apply negb_true_iff in Ha.
  assert (Hnot : forall r, In r l -> Profile.id a <> Profile.id r).
  { intros r Hr E.
    assert (existsb (Nat.eqb (Profile.id a)) (map Profile.id l) = true);
      [| congruence].
    apply existsb_exists. exists (Profile.id r).
    split; [now apply in_map | now apply Nat.eqb_eq]. }
  destruct Hin as [-> | Hin].
  - rewrite Nat.eqb_refl. f_equal. apply filter_none.
    intros r Hr. apply Nat.eqb_neq. intros E. apply (Hnot r Hr). congruence.
  - destruct (Nat.eqb_spec (Profile.id a) (Profile.id p)) as [E | _].
    + exfalso. exact (Hnot p Hin E).
    + now apply IH.
Qed.

(** X19.  [checkUser]: without a session the user is cleared; a profile it sets
    is the stored profile of the session's user, found whenever profile
    ids are unique and that user has a profile; and a session whose user
    has no profile row leaves the user that was set before. *)
Theorem checkUser_follows_session :
  forall (db : DB) (user : option Profile.t),
    checkUser None db user = None
    /\ (forall a p,
           checkUser (Some a) db user = Some p ->
           (In p (profiles db) /\ Profile.id p = a) \/ user = Some p)
    /\ (forall p,
           distinct_ids (map Profile.id (profiles db)) = true ->
           In p (profiles db) ->
           checkUser (Some (Profile.id p)) db user = Some p)
    /\ (forall a,
           profile_exists db a = false ->
           checkUser (Some a) db user = user).
Proof.
  intros db user. split; [reflexivity |].
  unfold checkUser, select_profiles. rewrite filter_true. repeat split.
  - intros a p H.
    destruct (filter (fun r => Profile.id r =? a) (profiles db))
      as [| r [| r' l]] eqn:E; simpl in H; auto.
    injection H as <-. left.
    assert (Hr : In r (filter (fun r => Profile.id r =? a) (profiles db)))
      by (rewrite E; now left).
    apply filter_In in Hr. destruct Hr as [Hr Hid].
    apply Nat.eqb_eq in Hid. auto.
  - intros p Hd Hp. now rewrite single_row_of_key.
  - intros a Hno. rewrite filter_none; [reflexivity |].
    intros r Hr. apply not_true_is_false. intros E.
    assert (profile_exists db a = true); [| congruence].
    apply existsb_exists. eauto.
Qed.

Lemma checkUser_follows_session_witness :
  distinct_ids (map Profile.id (profiles sample_db)) = true
  /\ In bob (profiles sample_db)
  /\ checkUser (Some 2) sample_db None = Some bob
  /\ profile_exists sample_db 9 = false
  /\ checkUser (Some 9) sample_db (Some alice) = Some alice.
Proof.
  assert (Hin : In bob (profiles sample_db)) by (simpl; tauto).
  split; [reflexivity |]. split; [exact Hin |]. split.
  - apply (proj1 (proj2 (proj2 (checkUser_follows_session sample_db None)))
             bob eq_refl Hin).
  - split; [reflexivity |].
    apply (proj2 (proj2 (proj2 (checkUser_follows_session sample_db
                                  (Some alice)))) 9 eq_refl).
Defined.



(** X21.  [handleAddContact] for a user who is already a contact of the
    caller, or for the caller's own id, leaves the store as it was: the
    UNIQUE and CHECK constraints of contacts reject the caller's row, and
    the reverse row is rejected by the policy or the CHECK. *)
Theorem handleAddContact_again_changes_nothing :
  forall (currentUser : Profile.t) (db : DB) (userId : uuid)
         (now : timestamp),
    contact_pair_exists db (Profile.id currentUser) userId = true
    \/ userId = Profile.id currentUser ->
    handleAddContact currentUser db userId now = db.
Proof.
  intros currentUser db userId now H.
  unfold handleAddContact, session, insert_contacts, contacts_insert_policy.
  simpl. rewrite Nat.eqb_refl. simpl.
  destruct (Nat.eqb_spec (Profile.id currentUser) userId) as [E | E].
  - simpl. rewrite <- E, Nat.eqb_refl. reflexivity.
  - destruct H as [H | H]; [| congruence].
    rewrite H. simpl. reflexivity.
Qed.

Lemma handleAddContact_again_changes_nothing_witness :
  contact_pair_exists sample_db (Profile.id alice) 2 = true
  /\ handleAddContact alice sample_db 2 7%Z = sample_db
  /\ handleAddContact alice sample_db 1 7%Z = sample_db.
Proof.
  split; [reflexivity |]. split.
  - apply handleAddContact_again_changes_nothing. left. reflexivity.
  - apply handleAddContact_again_changes_nothing. right. reflexivity.
Defined.

(** * Properties of the store as PostgreSQL runs it *)

(** ** Which statements are refused *)

Lemma first_error_embedded (fuel : nat) (l : list relation)
    (x : option relation) :
  first_error (map (fun r => expand_policies (3 + fuel) [] r [cmd_select]) l
               ++ [x])
  = if forallb (fun r => match policy_subqueries r cmd_select with
                         | [] => true
                         | _ :: _ => false
                         end) l
    then x else Some conversation_participants_rel.
Proof.
  induction l as [| r l IH].
  - destruct x; reflexivity.
  - change (first_error
              (map (fun r => expand_policies (3 + fuel) [] r [cmd_select])
                   (r :: l) ++ [x]))
      with (match expand_policies (3 + fuel) [] r [cmd_select] with
            | Some r' => Some r'
            | None =>
                first_error
                  (map (fun r => expand_policies (3 + fuel) [] r [cmd_select])
                       l ++ [x])
            end).
    rewrite IH. destruct r; reflexivity.
Qed.

Lemma expand_target (fuel : nat) (s : statement) :
  expand_policies (3 + fuel) [] (target s) (applied_policies s)
  = if forallb (fun c => match policy_subqueries (target s) c with
                         | [] => true
                         | _ :: _ => false
                         end) (applied_policies s)
    then None else Some conversation_participants_rel.
Proof.
  destruct s as [t c rd e]. destruct t, c, rd; reflexivity.
Qed.

Lemma statement_recursion_within_plain (fuel : nat) (s : statement) :
  statement_recursion_within (3 + fuel) s
  = if plain_policies s then None else Some conversation_participants_rel.
Proof.
  unfold statement_recursion_within, plain_policies.
  rewrite first_error_embedded, expand_target.
  destruct (forallb _ (applied_policies s)), (forallb _ (embedded s));
    reflexivity.
Qed.

(** The expansion needs no more than three steps, whatever is left of the
    fuel. *)
Lemma statement_recursion_fuel (fuel : nat) (s : statement) :
  statement_recursion_within (3 + fuel) s = statement_recursion s.
Proof.
  unfold statement_recursion.
  rewrite (statement_recursion_within_plain fuel s).
  symmetry. exact (statement_recursion_within_plain 3 s).
Qed.

Lemma pg_insert_messages_refused (uid : uuid) (db : DB) (conv sender : uuid)
    (content : jsstring) (now : timestamp) :
  pg_insert_messages uid db conv sender content now
  = (db, refused (infinite_recursion conversation_participants_rel)).
Proof. reflexivity. Qed.

Lemma pg_insert_conversations_refused (uid : uuid) (db : DB)
    (ty : conversation_type) (nm : option jsstring) (created_by : uuid)
    (now : timestamp) :
  pg_insert_conversations uid db ty nm created_by now
  = (db, refused (infinite_recursion conversation_participants_rel)).
Proof. reflexivity. Qed.

Lemma pg_insert_conversation_participants_refused (uid : uuid) (db : DB)
    (rows : list (uuid * uuid)) (now : timestamp) :
  pg_insert_conversation_participants uid db rows now
  = (db, refused (infinite_recursion conversation_participants_rel)).
Proof. reflexivity. Qed.

Lemma pg_handleCreatePrivateChat_refused (currentUser : Profile.t) (db : DB)
    (contactId : uuid) (now : timestamp) :
  pg_handleCreatePrivateChat currentUser db contactId now
  = mkComposed db None false
      (Some (caught_error (infinite_recursion conversation_participants_rel))).
Proof. reflexivity. Qed.


(** C1.  User 1 is a participant of conversation 10 and sends in their own
    name: the condition of the policy "Users can send messages to their
    conversations" holds on the stored tables, and yet the insert is
    refused with the recursion error for conversation_participants, and
    the messages table is as it was. *)
Theorem pg_insert_messages_refuses_participant :
  let out := pg_insert_messages 1 sample_db 10 1 (str "yo") 500%Z in
  may_send sample_db 1 10 1
  /\ messages_insert_policy 1 sample_db
       (new_message sample_db 10 1 (str "yo") 500%Z) = true
  /\ answer_error (snd out)
     = Some (infinite_recursion conversation_participants_rel)
  /\ answer_data (snd out) = None
  /\ messages (fst out) = messages sample_db.
Proof.
  cbv zeta. rewrite pg_insert_messages_refused.
  split; [| repeat split].
  split; [reflexivity |].
  apply is_participant_true. reflexivity.
Qed.

(** ** The conversation list, on the answers received *)

Lemma filter_ext_all {A} (f g : A -> bool) (l : list A) :
  (forall x, f x = g x) -> filter f l = filter g l.
Proof.
  intros H. induction l as [| a l IH]; simpl; [reflexivity |].
  rewrite H, IH. reflexivity.
Qed.

Lemma find_hd_filter {A} (f : A -> bool) (l : list A) :
  find f l = hd_error (filter f l).
Proof.
  induction l as [| a l IH]; simpl; [reflexivity |].
  destruct (f a); [reflexivity | exact IH].
Qed.

(** Where an entry of the list comes from. *)
Lemma loadConversations_given_entry
    (participantData : list ParticipantData)
    (allParticipants
       : option (list (ConversationParticipant.t * option Profile.t)))
    (lastMessages : option (list Message.t)) (result : list Entry)
    (e : Entry) :
  loadConversations_given (Some participantData) allParticipants lastMessages
  = Some result ->
  In e result ->
  exists p, In p participantData
            /\ entry_of_row allParticipants lastMessages p = Some e.
Proof.
  unfold loadConversations_given. intros H Hin.
  destruct (map_or_throw (entry_of_row allParticipants lastMessages)
                         participantData) as [l |] eqn:El; [| discriminate].
  injection H as <-. apply sort_In in Hin.
  exact (@map_or_throw_In _ _ _ _ _ El e Hin).
Qed.

Lemma entry_of_embedded_row
    (allParticipants
       : option (list (ConversationParticipant.t * option Profile.t)))
    (lastMessages : option (list Message.t)) (p : ParticipantData)
    (e : Entry) (conv : Conversation.t) :
  entry_of_row allParticipants lastMessages p = Some e ->
  entry_conversation e = Some conv ->
  pd_conversations p = Some conv
  /\ entry_last_message e
     = hd_error (returned_for lastMessages (Conversation.id conv))
  /\ entry_unread_count e
     = length (filter (is_unread_by_Date (Conversation.id conv)
                                         (pd_last_read_at p))
                      (rows_of lastMessages)).
Proof.
  unfold entry_of_row. intros H Hc.
  destruct (pd_conversations p) as [c |].
  - injection H as <-. simpl in Hc. injection Hc as ->.
    split; [reflexivity |]. split; [apply find_hd_filter | reflexivity].
  - destruct (rows_of allParticipants), (rows_of lastMessages);
      try discriminate.
    injection H as <-. discriminate.
Qed.

(** C3, as it holds: the unread count of an entry is the number of
    returned messages of its conversation whose created_at, read by Date,
    is strictly later than the last_read_at of the caller's row, read by
    Date; with a null last_read_at it is the number of all returned
    messages of the conversation. *)
Theorem unread_count_counts_messages_later_by_Date :
  forall (participantData : list ParticipantData)
         (allParticipants
            : option (list (ConversationParticipant.t * option Profile.t)))
         (lastMessages : option (list Message.t)) (result : list Entry)
         (e : Entry) (conv : Conversation.t),
    loadConversations_given (Some participantData) allParticipants
                            lastMessages = Some result ->
    In e result ->
    entry_conversation e = Some conv ->
    exists p,
      In p participantData
      /\ pd_conversations p = Some conv
      /\ match pd_last_read_at p with
         | Some t =>
             entry_unread_count e
             = length (filter (fun m => (Date_getTime t
                                         <? Date_getTime (Message.created_at m))%Z)
                              (returned_for lastMessages (Conversation.id conv)))
         | None =>
             entry_unread_count e
             = length (returned_for lastMessages (Conversation.id conv))
         end.
Proof.
  intros participantData allParticipants lastMessages result e conv H Hin Hc.
  destruct (@loadConversations_given_entry _ _ _ _ _ H Hin) as [p [Hp He]].
  destruct (@entry_of_embedded_row _ _ _ _ _ He Hc) as [Hconv [_ Hcount]].
  exists p. split; [exact Hp |]. split; [exact Hconv |].
  rewrite Hcount. unfold returned_for, is_unread_by_Date, later_by_Date.
  destruct (pd_last_read_at p) as [t |].
  - rewrite filter_filter. reflexivity.
  - f_equal. apply filter_ext_all. intros m. apply andb_true_r.
Qed.

(** C3, as stated, fails: the caller read conversation 10 at 2.000000 s
    and a message of it was stored at 2.000999 s.  The message is strictly
    later than the read mark and is not counted. *)
Lemma unread_count_misses_message_within_millisecond :
  let participantData := [row_of_conversation 10 1000000%Z (Some 2000000%Z)] in
  let lastMessages := Some [message_at 41 10 2000999%Z] in
  exists e,
    loadConversations_given (Some participantData) (Some []) lastMessages
    = Some [e]
    /\ entry_unread_count e = 0
    /\ length (filter (fun m => (2000000 <? Message.created_at m)%Z)
                      (returned_for lastMessages 10)) = 1
    /\ entry_unread_count e
       <> length (filter (fun m => (2000000 <? Message.created_at m)%Z)
                         (returned_for lastMessages 10)).
Proof.
  cbv zeta. eexists. split; [reflexivity |].
  split; [reflexivity |]. split; [reflexivity |]. discriminate.
Qed.

Lemma unread_count_counts_messages_later_by_Date_witness :
  let participantData :=
    [row_of_conversation 10 1000000%Z (Some 2000000%Z);
     row_of_conversation 11 3000000%Z None] in
  let lastMessages :=
    Some [message_at 43 11 3500000%Z; message_at 42 10 2001000%Z;
          message_at 41 10 2000999%Z; message_at 40 10 1500000%Z] in
  exists result e conv,
    loadConversations_given (Some participantData) None lastMessages
    = Some result
    /\ In e result
    /\ entry_conversation e = Some conv
    /\ Conversation.id conv = 10
    /\ entry_unread_count e = 1
    /\ exists p,
         In p participantData
         /\ pd_conversations p = Some conv
         /\ match pd_last_read_at p with
            | Some t =>
                entry_unread_count e
                = length (filter (fun m => (Date_getTime t
                                            <? Date_getTime (Message.created_at m))%Z)
                                 (returned_for lastMessages (Conversation.id conv)))
            | None =>
                entry_unread_count e
                = length (returned_for lastMessages (Conversation.id conv))
            end.
Proof.
  cbv zeta.
  eexists. exists (mkEntry (Some (Conversation.mk 10 private None 1 1000000%Z 1000000%Z))
                           [] (Some (message_at 42 10 2001000%Z)) 1).
  eexists.
  split; [reflexivity |]. split; [simpl; tauto |].
  split; [reflexivity |]. split; [reflexivity |]. split; [reflexivity |].
  apply (@unread_count_counts_messages_later_by_Date
           [row_of_conversation 10 1000000%Z (Some 2000000%Z);
            row_of_conversation 11 3000000%Z None]
           None
           (Some [message_at 43 11 3500000%Z; message_at 42 10 2001000%Z;
                  message_at 41 10 2000999%Z; message_at 40 10 1500000%Z])
           _ _ _ eq_refl).
  - simpl. tauto.
  - reflexivity.
Defined.

Lemma entry_time_of_conversation (e : Entry) (conv : Conversation.t) :
  entry_conversation e = Some conv ->
  entry_time e
  = Some match entry_last_message e with
         | Some m => Message.created_at m
         | None => Conversation.created_at conv
         end.
Proof.
  unfold entry_time. intros ->. destruct (entry_last_message e); reflexivity.
Qed.

Lemma embedded_entries (participantData : list ParticipantData)
    (allParticipants
       : option (list (ConversationParticipant.t * option Profile.t)))
    (lastMessages : option (list Message.t)) (l : list Entry) :
  conversations_embedded participantData = true ->
  map_or_throw (entry_of_row allParticipants lastMessages) participantData
  = Some l ->
  forall e, In e l -> exists conv, entry_conversation e = Some conv.
Proof.
  intros Hemb El e Hin.
  destruct (@map_or_throw_In _ _ _ _ _ El e Hin) as [p [Hp He]].
  unfold conversations_embedded in Hemb.
  rewrite forallb_forall in Hemb. specialize (Hemb p Hp).
  unfold entry_of_row in He.
  destruct (pd_conversations p) as [c |]; [| discriminate].
  injection He as <-. exists c. reflexivity.
Qed.

(** C5, as it holds: when every row of the first answer carries its
    conversation, the list is in descending order of the key read by Date,
    the key of an entry being the created_at of the first returned message
    of its conversation, else the created_at of the conversation. *)
Theorem conversations_sorted_by_key_read_by_Date :
  forall (participantData : list ParticipantData)
         (allParticipants
            : option (list (ConversationParticipant.t * option Profile.t)))
         (lastMessages : option (list Message.t)) (result : list Entry),
    conversations_embedded participantData = true ->
    loadConversations_given (Some participantData) allParticipants
                            lastMessages = Some result ->
    StronglySorted (descending entry_key) result
    /\ forall e conv,
         In e result -> entry_conversation e = Some conv ->
         entry_key e
         = Date_getTime
             match hd_error (returned_for lastMessages (Conversation.id conv))
             with
             | Some m => Message.created_at m
             | None => Conversation.created_at conv
             end.
Proof.
  intros participantData allParticipants lastMessages result Hemb H.
  split.
  - unfold loadConversations_given in H.
    destruct (map_or_throw (entry_of_row allParticipants lastMessages)
                           participantData) as [l |] eqn:El; [| discriminate].
    injection H as <-. apply sort_descending_on.
    intros a b Ha Hb.
    destruct (@embedded_entries _ _ _ _ Hemb El a Ha) as [ca Hca].
    destruct (@embedded_entries _ _ _ _ Hemb El b Hb) as [cb Hcb].
    unfold by_recent_activity_Date, entry_key.
    rewrite (@entry_time_of_conversation _ _ Hca).
    rewrite (@entry_time_of_conversation _ _ Hcb). reflexivity.
  - intros e conv Hin Hc.
    destruct (@loadConversations_given_entry _ _ _ _ _ H Hin) as [p [Hp He]].
    destruct (@entry_of_embedded_row _ _ _ _ _ He Hc) as [_ [Hlast _]].
    unfold entry_key. rewrite (@entry_time_of_conversation _ _ Hc), Hlast.
    reflexivity.
Qed.

(** C5, as stated, fails: conversations 10 and 11 have no messages and
    were created 0.8 ms apart within one millisecond, 11 after 10.  The
    comparison function returns 0 for them and 10 stays before 11, though
    its key is the smaller one. *)
Lemma conversations_within_a_millisecond_keep_their_order :
  let participantData :=
    [row_of_conversation 10 5000100%Z None;
     row_of_conversation 11 5000900%Z None] in
  exists a b,
    loadConversations_given (Some participantData) (Some []) (Some [])
    = Some [a; b]
    /\ entry_last_message a = None /\ entry_last_message b = None
    /\ option_map Conversation.created_at (entry_conversation a)
       = Some 5000100%Z
    /\ option_map Conversation.created_at (entry_conversation b)
       = Some 5000900%Z
    /\ ~ StronglySorted
           (descending (fun e => match entry_time e with
                                 | Some t => t
                                 | None => 0%Z
                                 end))
           [a; b].
Proof.
  cbv zeta. eexists. eexists. split; [reflexivity |].
  split; [reflexivity |]. split; [reflexivity |].
  split; [reflexivity |]. split; [reflexivity |].
  intros Hs. inversion Hs as [| ? ? _ Hall]; subst.
  inversion Hall as [| ? ? Hab _]; subst.
  unfold descending in Hab. simpl in Hab. lia.
Qed.

Lemma conversations_sorted_by_key_read_by_Date_witness :
  let participantData :=
    [row_of_conversation 10 1000000%Z (Some 2000000%Z);
     row_of_conversation 11 3000000%Z None;
     row_of_conversation 12 3000400%Z None] in
  let lastMessages :=
    Some [message_at 42 10 4001000%Z; message_at 41 10 2000999%Z] in
  exists result,
    conversations_embedded participantData = true
    /\ loadConversations_given (Some participantData) None lastMessages
       = Some result
    /\ map entry_key result = [4001; 3000; 3000]%Z
    /\ StronglySorted (descending entry_key) result
    /\ forall e conv,
         In e result -> entry_conversation e = Some conv ->
         entry_key e
         = Date_getTime
             match hd_error (returned_for lastMessages (Conversation.id conv))
             with
             | Some m => Message.created_at m
             | None => Conversation.created_at conv
             end.
Proof.
  cbv zeta. eexists.
  split; [reflexivity |]. split; [reflexivity |]. split; [reflexivity |].
  apply (@conversations_sorted_by_key_read_by_Date
           [row_of_conversation 10 1000000%Z (Some 2000000%Z);
            row_of_conversation 11 3000000%Z None;
            row_of_conversation 12 3000400%Z None]
           None
           (Some [message_at 42 10 4001000%Z; message_at 41 10 2000999%Z])
           _ eq_refl eq_refl).
Defined.

(** ** The new-chat composer against the store *)

Lemma sample_private_chat :
  private_chat_with sample_db 1 2
    (Conversation.mk 10 private None 1 100%Z 100%Z).
Proof.
  unfold private_chat_with. simpl Conversation.id.
  repeat split; try (apply is_participant_true; reflexivity).
  simpl. auto.
Qed.

Lemma sample_no_private_chat (c : Conversation.t) :
  ~ private_chat_with sample_db 1 3 c.
Proof.
  intros [Hin [Hty [H1 [_ H3]]]].
  apply is_participant_true in H1. apply is_participant_true in H3.
  simpl in Hin.
  destruct Hin as [<- | [<- | [<- | []]]]; simpl in *; discriminate.
Qed.

(** C8.  In the sample store, users 1 and 2 have the private conversation
    10, and users 1 and 3 have none.  [handleCreatePrivateChat] by user 1
    reports nothing for contact 2 and creates nothing for contact 3: in
    both runs the lookup is refused, the conversation insert is refused
    with the recursion error for conversation_participants, the handler
    throws it, and the store is as it was. *)
Theorem pg_handleCreatePrivateChat_neither_finds_nor_creates :
  private_chat_with sample_db 1 2
    (Conversation.mk 10 private None 1 100%Z 100%Z)
  /\ pg_handleCreatePrivateChat alice sample_db 2 7%Z
     = mkComposed sample_db None false
         (Some (caught_error
                  (infinite_recursion conversation_participants_rel)))
  /\ (forall c, ~ private_chat_with sample_db 1 3 c)
  /\ pg_handleCreatePrivateChat alice sample_db 3 7%Z
     = mkComposed sample_db None false
         (Some (caught_error
                  (infinite_recursion conversation_participants_rel))).
Proof.
  split; [exact sample_private_chat |].
  split; [apply pg_handleCreatePrivateChat_refused |].
  split; [exact sample_no_private_chat |].
  apply pg_handleCreatePrivateChat_refused.
Qed.


(** With the policies read on the stored tables, a refused participants
    insert goes unnoticed as well, because its answer is dropped.  User 1
    creates a group with a selected contact 4 whose profile no longer
    exists: the conversation is created, the participants insert fails on
    the foreign key, and the handler reports conversation 50, which has no
    participant. *)
Lemma dropped_answer_leaves_conversation_without_participants :
  exists out,
    handleCreateGroupChat alice sample_db [4] (str "crew") 7%Z = Some out
    /\ onConversationCreated out = Some 50
    /\ console_error out = None
    /\ conversation_exists (store out) 50 = true
    /\ participants_of (store out) 50 = [].
Proof. eexists. vm_compute. repeat split. Qed.

(** ** Names of conversations *)

(** X2.  The name shown for an entry, from the entry alone: a group shows
    its name, or "Group Chat" without one; a private conversation shows
    the display name of the participants other than the caller when they
    all carry a profile with that name, and "Unknown User" when the entry
    lists no participant other than the caller. *)
Theorem getConversationName_of_entry :
  forall (currentUserId : uuid) (c : ConversationWithDetails.t),
    (Conversation.type (ConversationWithDetails.conversation c) = group ->
     getConversationName currentUserId c
     = Some (or_else (Conversation.name (ConversationWithDetails.conversation c))
                     (str "Group Chat")))
    /\ (Conversation.type (ConversationWithDetails.conversation c) = private ->
        (forall p, In p (ConversationWithDetails.participants c) ->
                   ConversationParticipant.user_id (fst p) = currentUserId) ->
        getConversationName currentUserId c = Some (str "Unknown User"))
    /\ (forall name,
          Conversation.type (ConversationWithDetails.conversation c) = private ->
          (exists p, In p (ConversationWithDetails.participants c)
                     /\ ConversationParticipant.user_id (fst p)
                        <> currentUserId) ->
          (forall p, In p (ConversationWithDetails.participants c) ->
                     ConversationParticipant.user_id (fst p) <> currentUserId ->
                     exists profile, snd p = Some profile
                                     /\ Profile.display_name profile = name) ->
          getConversationName currentUserId c
          = Some (or_else (Some name) (str "Unknown User"))).
Proof.
  intros currentUserId c. unfold getConversationName.
  split; [intros ->; reflexivity |]. split.
  - intros -> Hall. rewrite find_absent; [reflexivity |].
    intros p Hp. rewrite (Hall p Hp), Nat.eqb_refl. reflexivity.
  - intros name -> [q [Hq Hne]] Hall.
    destruct (find _ (ConversationWithDetails.participants c))
      as [p |] eqn:Ef.
    + apply find_some in Ef. destruct Ef as [Hp Hf].
      apply negb_true_iff, Nat.eqb_neq in Hf.
      destruct (Hall p Hp Hf) as [profile [-> <-]]. reflexivity.
    + exfalso. apply (find_none _ _ Ef) in Hq.
      apply negb_false_iff, Nat.eqb_eq in Hq. contradiction.
Qed.

Lemma getConversationName_of_entry_witness :
  let chat :=
    ConversationWithDetails.mk
      (Conversation.mk 10 private None 1 100%Z 100%Z)
      [(ConversationParticipant.mk 30 10 1 100%Z None, Some alice);
       (ConversationParticipant.mk 31 10 2 100%Z None, Some bob)]
      None 0 in
  let team :=
    ConversationWithDetails.mk
      (Conversation.mk 11 group (Some (str "team")) 1 300%Z 300%Z) [] None 0 in
  getConversationName 1 chat = Some (str "bob")
  /\ getConversationName 2 chat = Some (str "alice")
  /\ getConversationName 1 (sample_chat 10) = Some (str "Unknown User")
  /\ getConversationName 1 team = Some (str "team").
Proof.
  intros chat team.
  split; [| split; [| split]].
  - refine (proj2 (proj2 (@getConversationName_of_entry 1 chat))
                  (str "bob") eq_refl _ _).
    + eexists. split; [right; left; reflexivity | simpl; lia].
    + intros p [<- | [<- | []]] Hne; simpl in Hne; [lia |].
      exists bob. split; reflexivity.
  - refine (proj2 (proj2 (@getConversationName_of_entry 2 chat))
                  (str "alice") eq_refl _ _).
    + eexists. split; [left; reflexivity | simpl; lia].
    + intros p [<- | [<- | []]] Hne; simpl in Hne; [| lia].
      exists alice. split; reflexivity.
  - refine (proj1 (proj2 (@getConversationName_of_entry 1 (sample_chat 10)))
                  eq_refl _).
    intros p [].
  - exact (proj1 (@getConversationName_of_entry 1 team) eq_refl).
Defined.

(** ** What the policies let through *)

(** X22.  A statement passes the expansion of its policies exactly when
    none of the policies added to it has a subquery; every other statement
    is refused with the recursion error for conversation_participants.
    Selects on conversations, conversation_participants and messages, and
    inserts into conversation_participants and messages, are among the
    latter. *)
Theorem statement_refused_unless_policies_plain :
  forall s : statement,
    statement_recursion s
    = if plain_policies s then None
      else Some conversation_participants_rel.
Proof.
  intros s. exact (statement_recursion_within_plain 3 s).
Qed.

(** X23.  [loadConversations] never sets the list: the first select is
    refused, [participantData] is null and the handler returns. *)
Theorem pg_loadConversations_sets_nothing :
  forall (user : Profile.t) (db : DB), pg_loadConversations user db = None.
Proof. reflexivity. Qed.

(** X24.  [loadMessages] leaves the shown messages as they are: the select
    is refused and [data] is null. *)
Theorem pg_loadMessages_shows_nothing_new :
  forall (conversation : ConversationWithDetails.t) (currentUser : Profile.t)
         (db : DB) (shown : list (Message.t * option Profile.t)),
    pg_loadMessages conversation currentUser db shown = shown.
Proof. reflexivity. Qed.
